(** * Document validator (OCR + PDF): a shallow embedding of [main.py]

    The service receives an upload and a declared document type, extracts
    the text of the upload (OCR for images, text layer or OCR per page for
    PDFs), normalises it and looks for one of the keywords registered for
    the declared type.

    Conventions of the embedding.
    - A Python [str] is a [string]; every [ascii] stands for ONE code point
      in the range U+0000..U+00FF (Latin-1, which contains ASCII), not for a
      byte of some encoding.  On that range [str.lower] maps a character to
      exactly one character and the regular-expression class [\s] is the
      twelve characters listed in [is_space].
    - External collaborators (Pillow, pytesseract, pdfplumber, [tempfile],
      [os.path.splitext], [str] of an exception) are the fields of the class
      [Externals], and every call of a library may raise: the program is
      verified for every behaviour they may have.  The class also records
      what the libraries document: the contract of [os.path.splitext], and
      that a short, plain suffix can end a file name.  [tempfile] refuses
      the suffixes that cannot end a file name; a shortage of disk space is
      not modelled, so a write to an open temporary file succeeds.
    - Effects are explicit: a computation takes the world (temporary-file
      store and an instrumentation trace) and returns either a raised
      exception or a value, together with the new world. *)

From Stdlib Require Import Ascii NArith ZArith List Lia Bool.
From stdpp Require Import gmap strings list fin_maps fin_sets.
Import ListNotations.

Local Open Scope char_scope.
#[local] Arguments String.append !s1 s2 / : simpl nomatch.

(** ** Python strings *)

Module Str.

(** [re]'s [\s] on a [str] pattern, restricted to code points below 256:
    TAB..CR, FS..US, SPACE, NEL and NBSP. *)
Definition is_space (c : ascii) : bool :=
  let n := N_of_ascii c in
  ((9 <=? n) && (n <=? 13) || (28 <=? n) && (n <=? 32)
   || (n =? 133) || (n =? 160))%N.

(** [str.lower] on one code point below 256: A..Z and the Latin-1
    capitals U+00C0..U+00DE (the multiplication sign U+00D7 excepted)
    move up by 32; everything else is unchanged. *)
Definition lower_char (c : ascii) : ascii :=
  let n := N_of_ascii c in
  if ((65 <=? n) && (n <=? 90)
      || (192 <=? n) && (n <=? 222) && negb (n =? 215))%N
  then ascii_of_N (n + 32) else c.

(** [s.lower()] *)
Fixpoint lower (s : string) : string :=
  match s with
  | EmptyString => EmptyString
  | String c s' => String (lower_char c) (lower s')
  end.

(** [re.sub(r'\s+', ' ', s)]: the scanner replaces every maximal run of
    white space by one space.  [in_run] records that the character just
    read belongs to a run whose replacement was already emitted. *)
Fixpoint sub_ws_from (in_run : bool) (s : string) : string :=
  match s with
  | EmptyString => EmptyString
  | String c s' =>
      if is_space c
      then (if in_run then sub_ws_from true s'
            else String " " (sub_ws_from true s'))
      else String c (sub_ws_from false s')
  end.

Definition sub_ws (s : string) : string := sub_ws_from false s.

(** [s.startswith(p)] *)
Fixpoint startswith (p s : string) : bool :=
  match p, s with
  | EmptyString, _ => true
  | String _ _, EmptyString => false
  | String a p', String b s' => if Ascii.eqb a b then startswith p' s' else false
  end.

(** [sub in s]: some position of [s] starts an occurrence of [sub]. *)
Fixpoint contains (sub s : string) : bool :=
  startswith sub s ||
  match s with
  | EmptyString => false
  | String _ s' => contains sub s'
  end.

(** [s.endswith(suf)]: some tail of [s] equals [suf]. *)
Fixpoint endswith (suf s : string) : bool :=
  String.eqb s suf ||
  match s with
  | EmptyString => false
  | String _ s' => endswith suf s'
  end.

(** [s.endswith((a, b, ...))] with a tuple of suffixes. *)
Definition endswith_any (sufs : list string) (s : string) : bool :=
  existsb (fun suf => endswith suf s) sufs.

(** [s[:n]] for a non-negative [n]. *)
Fixpoint take (n : nat) (s : string) : string :=
  match n, s with
  | O, _ => EmptyString
  | S _, EmptyString => EmptyString
  | S n', String c s' => String c (take n' s')
  end.

Arguments take n s : simpl never.

(** A period, an ASCII letter or an ASCII digit. *)
Definition is_plain (c : ascii) : bool :=
  let n := N_of_ascii c in
  ((n =? 46) || (48 <=? n) && (n <=? 57) || (65 <=? n) && (n <=? 90)
   || (97 <=? n) && (n <=? 122))%N.

(** Truth value of a string: [bool(s)]. *)
Definition truthy (s : string) : bool :=
  match s with EmptyString => false | String _ _ => true end.

(** All characters of [s] satisfy [p]. *)
Fixpoint all (p : ascii -> bool) (s : string) : bool :=
  match s with
  | EmptyString => true
  | String c s' => p c && all p s'
  end.

End Str.

(** ** The registry and the normaliser *)

(** [DOCUMENT_KEYWORDS]: the items of the dictionary literal, in source
    order. *)
Definition DOCUMENT_KEYWORDS_items : list (string * list string) :=
  [ ("sss-gsis-umid",
      ["unified multi-purpose id"; "multi-purpose";
       "pambansang pagkakakilanlan"; "philippine identification card";
       "gsis"; "sss"]);
    ("philid",
      ["philippine identification card"; "pambansang pagkakakilanlan"]);
    ("business-permit", ["business permit"]);
    ("articles-of-incorporation",
      ["articles of incorporation"; "incorporated"]);
    ("dti-license",
      ["department of trade and industry"; "dti certificate"]);
    ("bir-form", ["bir form"; "bureau of internal revenue"]);
    ("amended-gis",
      ["amended general information sheet"; "amended gis"]);
    ("sec", ["securities and exchange commission"]);
    ("passport", ["passport"; "republic of the philippines passport"]);
    ("drivers-license", ["driver's license"; "dln"]);
    ("tin-id", ["taxpayer identification number"; "tin id"]) ]%string.

Definition DOCUMENT_KEYWORDS : gmap string (list string) :=
  list_to_map DOCUMENT_KEYWORDS_items.

(** [normalize_text] *)
Definition normalize_text (text : string) : string :=
  Str.lower (Str.sub_ws text).

(** ** Exceptions, the world and the effect monad *)

(** The two kinds of exception the handler can see.  Both derive from
    Python's [Exception] ([fastapi.HTTPException] through Starlette's
    class, the libraries' errors through [OSError], [RuntimeError], ...),
    so an [except Exception] clause catches either. *)
Inductive exn : Type :=
  | HTTPException (status_code : Z) (detail : string)
  | LibraryError (what : string).

(** A temporary file is named by the stem the operating system picked and
    the suffix the program asked for. *)
Definition tmp_path : Type := nat * string.

(** Instrumentation: what a monitor of the process would record.  The
    creation and the removal of a temporary file are effects of the source;
    the two extraction events are ghost steps added at the entry of
    [extract_text_from_image] and [extract_text_from_pdf], so that "the
    extractor was called" can be read off the trace. *)
Inductive event : Type :=
  | EvCreate (p : tmp_path)
  | EvRemove (p : tmp_path)
  | EvExtractImage (p : tmp_path)
  | EvExtractPdf (p : tmp_path).

Global Instance event_eq_dec : EqDecision event.
Proof. solve_decision. Defined.

Record world : Type := World {
  tmp_files : gmap tmp_path (list Byte.byte);
  trace : list event
}.

(** A computation either raises or returns, and leaves a world behind. *)
Definition M (A : Type) : Type := world -> (exn + A) * world.

Definition ret {A} (a : A) : M A := fun w => (inr a, w).
Definition raise {A} (e : exn) : M A := fun w => (inl e, w).
Definition bind {A B} (c : M A) (k : A -> M B) : M B :=
  fun w => match c w with
           | (inl e, w') => (inl e, w')
           | (inr a, w') => k a w'
           end.

Notation "'do' x <- c ; k" := (bind c (fun x => k))
  (at level 10, x name, c at level 99, k at level 200,
   format "'[v' 'do'  x  <-  c ; '/' k ']'").
Notation "c ;; k" := (bind c (fun _ => k))
  (at level 100, k at level 200, right associativity).

(** [try: body finally: cleanup].  The clean-up runs whatever the body did;
    if the clean-up itself raises, that exception replaces the outcome. *)
Definition try_finally {A} (body : M A) (cleanup : M unit) : M A :=
  fun w => match body w with
           | (r, w1) =>
               match cleanup w1 with
               | (inl e, w2) => (inl e, w2)
               | (inr _, w2) => (r, w2)
               end
           end.

(** [try: body except Exception as e: handler(e)]. *)
Definition try_except {A} (body : M A) (handler : exn -> M A) : M A :=
  fun w => match body w with
           | (inl e, w1) => handler e w1
           | (inr a, w1) => (inr a, w1)
           end.

(** An external call that reports failure as an error message. *)
Definition call {A} (r : string + A) : M A :=
  match r with
  | inl what => raise (LibraryError what)
  | inr a => ret a
  end.

Definition log (ev : event) : M unit :=
  fun w => (inr tt, World (tmp_files w) (trace w ++ [ev])).

(** The stem [tempfile] picks is not used by any existing file. *)
Definition fresh_stem (w : world) : nat :=
  fresh (set_map (D := gset nat) fst (dom (tmp_files w))).

(** [tmp.write(data)]: the bytes are added at the end of the file.  The
    file system of the model has room for them. *)
Definition file_write (p : tmp_path) (data : list Byte.byte) : M unit :=
  fun w => match tmp_files w !! p with
           | Some old =>
               (inr tt, World (<[p := old ++ data]> (tmp_files w)) (trace w))
           | None => (inl (LibraryError "ValueError"), w)
           end.

(** [os.remove(path)] *)
Definition os_remove (p : tmp_path) : M unit :=
  fun w => match tmp_files w !! p with
           | Some _ => (inr tt, World (delete p (tmp_files w)) (trace w ++ [EvRemove p]))
           | None => (inl (LibraryError "FileNotFoundError"), w)
           end.

(** Opening [path] for reading. *)
Definition read_file (p : tmp_path) : M (list Byte.byte) :=
  fun w => match tmp_files w !! p with
           | Some data => (inr data, w)
           | None => (inl (LibraryError "FileNotFoundError"), w)
           end.

(** ** The external collaborators *)

Class Externals : Type := {
  (** Pillow *)
  image : Type;
  Image_open : list Byte.byte -> string + image;
  Image_convert : image -> string -> string + image;
  ImageOps_autocontrast : image -> string + image;
  Image_width : image -> Z;
  Image_height : image -> Z;
  Image_resize : image -> Z * Z -> string + image;
  (** pytesseract *)
  image_to_string : image -> string + string;
  (** pdfplumber *)
  page : Type;
  pdfplumber_open : list Byte.byte -> string + list page;
  page_extract_text : page -> string + option string;
  page_to_image_original : page -> Z -> string + image;
  (** [os.path.splitext] *)
  splitext : string -> string * string;
  (** [tempfile]: the error with which the creation of a file whose name
      ends in [suffix] is refused (name too long, NUL, a character the file
      system does not allow), if it is refused. *)
  tempfile_error : string -> option string;
  (** [str(e)] *)
  exn_str : exn -> string;
  (** [os.path.splitext(path)] is a pair [(root, ext)] with
      [root + ext == path], where [ext] is empty or begins with a period and
      contains no other period. *)
  splitext_concat :
    forall path, fst (splitext path) +:+ snd (splitext path) = path;
  splitext_ext :
    forall path,
      snd (splitext path) = EmptyString
      \/ exists rest,
           snd (splitext path) = String "." rest
           /\ Str.contains "." rest = false;
  (** A suffix of at most five periods, ASCII letters and ASCII digits can
      end a file name. *)
  tempfile_plain_suffix :
    forall suffix,
      String.length suffix <= 5 -> Str.all Str.is_plain suffix = true ->
      tempfile_error suffix = None
}.

(** [fastapi.UploadFile]: the name the client gave and what reading the
    stream yields. *)
Record UploadFile : Type := {
  filename : string;
  file_read : string + list Byte.byte
}.

(** The JSON body built by the handler. *)
Record JSONResponse : Type := {
  is_valid : bool;
  message : string;
  debug_text_snippet : string
}.

(** ** The program *)

Definition newline : string := String "010" EmptyString.
Definition dquote : string := String "034" EmptyString.

(** Truth value of an optional string ([None] and [''] are false). *)
Definition truthy_opt (o : option string) : bool :=
  match o with
  | Some s => Str.truthy s
  | None => false
  end.

(** The string an f-string or [+] sees for a value known to be true. *)
Definition str_of_opt (o : option string) : string :=
  match o with
  | Some s => s
  | None => "None"
  end.

(** [next((kw for kw in keywords if kw in text), None)] *)
Fixpoint next_match (keywords : list string) (text : string) : option string :=
  match keywords with
  | [] => None
  | kw :: rest => if Str.contains kw text then Some kw else next_match rest text
  end.

(** [d[k]] *)
Definition dict_getitem {V} (d : gmap string V) (k : string) : M V :=
  match d !! k with
  | Some v => ret v
  | None => raise (LibraryError "KeyError")
  end.

Section Service.

Context {E : Externals}.

(** [tempfile.NamedTemporaryFile(delete=False, suffix=suffix)]: a new, empty
    file under a name that no existing file has, unless no file name can
    end in [suffix]: then the call raises and nothing is created.  Leaving
    the [with] block closes the file and, because of [delete=False], keeps
    it. *)
Definition NamedTemporaryFile (suffix : string) : M tmp_path :=
  fun w =>
    match tempfile_error suffix with
    | Some what => (inl (LibraryError what), w)
    | None =>
        let p := (fresh_stem w, suffix) in
        (inr p, World (<[p := []]> (tmp_files w)) (trace w ++ [EvCreate p]))
    end.

(** [preprocess_image] *)
Definition preprocess_image (path : tmp_path) : M image :=
  do data <- read_file path;
  do image <- call (Image_open data);
  do image <- call (Image_convert image "L");
  do image <- call (ImageOps_autocontrast image);
  do image <- call (Image_resize image
                      (Image_width image * 2, Image_height image * 2)%Z);
  ret image.

(** [extract_text_from_image]; the first step only records the call. *)
Definition extract_text_from_image (path : tmp_path) : M string :=
  log (EvExtractImage path) ;;
  do image <- preprocess_image path;
  call (image_to_string image).

(** The body of [for page in pdf.pages], with [text] the accumulator. *)
Fixpoint pdf_pages_loop (pages : list page) (text : string) : M string :=
  match pages with
  | [] => ret text
  | pg :: rest =>
      do page_text <- call (page_extract_text pg);
      if truthy_opt page_text
      then pdf_pages_loop rest (text +:+ (str_of_opt page_text +:+ newline))
      else
        do image <- call (page_to_image_original pg 300);
        do ocr <- call (image_to_string image);
        pdf_pages_loop rest (text +:+ (ocr +:+ newline))
  end.

(** [extract_text_from_pdf]; the first step only records the call. *)
Definition extract_text_from_pdf (path : tmp_path) : M string :=
  log (EvExtractPdf path) ;;
  let text := EmptyString in
  do data <- read_file path;
  do pages <- call (pdfplumber_open data);
  pdf_pages_loop pages text.

(** [process_file].  The suffix is computed, the temporary file is
    created, and only then is the upload read and copied into it; the
    [try] block starts after the [with] block has been left. *)
Definition process_file (file : UploadFile) : M string :=
  let ext := Str.lower (filename file) in
  let suffix := snd (splitext (filename file)) in
  do tmp_path <-
    (do tmp <- NamedTemporaryFile suffix;
     do data <- call (file_read file);
     file_write tmp data ;;
     ret tmp);
  try_finally
    (if Str.endswith_any [".png"; ".jpg"; ".jpeg"]%string ext
     then extract_text_from_image tmp_path
     else if Str.endswith ".pdf" ext
     then extract_text_from_pdf tmp_path
     else raise (HTTPException 400 "Unsupported file format"))
    (os_remove tmp_path).

(** [validate_file] *)
Definition validate_file (type : string) (file : UploadFile)
  : M JSONResponse :=
  try_except
    ((match DOCUMENT_KEYWORDS !! type with
      | None => raise (HTTPException 400 "Unsupported document type")
      | Some _ => ret tt
      end) ;;
     do raw_text <- process_file file;
     let normalized_text := normalize_text raw_text in
     do keywords <- dict_getitem DOCUMENT_KEYWORDS type;
     let found_keyword := next_match keywords normalized_text in
     ret {| is_valid := truthy_opt found_keyword;
            message :=
              if truthy_opt found_keyword
              then dquote +:+ (str_of_opt found_keyword
                                 +:+ (dquote +:+ " detected."))
              else "No expected keyword found.";
            debug_text_snippet := Str.take 1000 normalized_text |})
    (fun e => raise (HTTPException 500 (exn_str e))).

(** The status line FastAPI sends: 200 for a returned [JSONResponse], the
    exception's own status for a raised [HTTPException], 500 for anything
    else that escapes the handler. *)
Definition http_status (r : exn + JSONResponse) : Z :=
  match r with
  | inr _ => 200
  | inl (HTTPException status_code _) => status_code
  | inl (LibraryError _) => 500
  end.

End Service.


(** ** Vocabulary of the properties *)

(** [sub] occurs in [s] as a literal, contiguous substring. *)
Definition occurs (sub s : string) : Prop :=
  exists pre post, s = pre +:+ sub +:+ post.

(** [name] ends in [ext] when the case of letters is ignored. *)
Definition has_extension (name ext : string) : Prop :=
  exists stem tail, name = stem +:+ tail /\ Str.lower tail = ext.

Definition is_image_name (name : string) : Prop :=
  has_extension name ".png" \/ has_extension name ".jpg"
  \/ has_extension name ".jpeg".

Definition is_pdf_name (name : string) : Prop := has_extension name ".pdf".

(** Every cased character of [s] is lower case. *)
Definition is_lowercase (s : string) : bool :=
  Str.all (fun c => Ascii.eqb (Str.lower_char c) c) s.

(** Every white-space character of [s] is a space that does not follow
    another white-space character ([prev_ws] tells what precedes [s]). *)
Fixpoint single_spaced_from (prev_ws : bool) (s : string) : bool :=
  match s with
  | EmptyString => true
  | String c s' =>
      if Str.is_space c
      then Ascii.eqb c " " && negb prev_ws && single_spaced_from true s'
      else single_spaced_from false s'
  end.

Definition single_spaced (s : string) : bool := single_spaced_from false s.

(** A test over every keyword of every registered type. *)
Definition registry_forallb (p : string -> bool) : bool :=
  forallb (fun item => forallb p (snd item)) DOCUMENT_KEYWORDS_items.

(** The state of the [sub_ws_from] scanner after it has read [s]. *)
Fixpoint end_state (b : bool) (s : string) : bool :=
  match s with
  | EmptyString => b
  | String c s' => end_state (Str.is_space c) s'
  end.

(** [loosely_matches kw frag]: [frag] is [kw] up to the case of its letters
    and the shape of its white space.  A character of [kw] that is not white
    space stands for any character with the same lower-case form; a
    white-space character of [kw] stands for any non-empty run of white
    space. *)
Inductive loosely_matches : string -> string -> Prop :=
  | lm_nil : loosely_matches EmptyString EmptyString
  | lm_char c c' kw frag :
      Str.is_space c = false ->
      Str.lower_char c' = Str.lower_char c ->
      loosely_matches kw frag ->
      loosely_matches (String c kw) (String c' frag)
  | lm_space c run kw frag :
      Str.is_space c = true ->
      Str.all Str.is_space run = true ->
      run <> EmptyString ->
      loosely_matches kw frag ->
      loosely_matches (String c kw) (run +:+ frag).

(** [s] contains [kw] up to case and white space. *)
Definition loosely_contains (kw s : string) : Prop :=
  exists pre frag post, s = pre +:+ frag +:+ post /\ loosely_matches kw frag.

(** The message of a successful match. *)
Definition detected (kw : string) : string :=
  dquote +:+ kw +:+ dquote +:+ " detected.".

(** The computation [c] leaves the files alone and adds exactly [events] to
    the trace, whatever it returns. *)
Definition appends {A} (events : list event) (c : M A) : Prop :=
  forall w, exists r,
    c w = (r, World (tmp_files w) (trace w ++ events)).

(** Concatenation of a list of strings. *)
Definition join (parts : list string) : string :=
  fold_right String.append EmptyString parts.

(** The results of a sequence of steps: all the values, or the first
    exception. *)
Fixpoint collect {A} (steps : list (exn + A)) : exn + list A :=
  match steps with
  | [] => inr []
  | inl e :: _ => inl e
  | inr a :: rest =>
      match collect rest with
      | inl e => inl e
      | inr values => inr (a :: values)
      end
  end.

Definition lift_error {A} (r : string + A) : exn + A :=
  match r with
  | inl what => inl (LibraryError what)
  | inr a => inr a
  end.

Section Descriptions.

Context {E : Externals}.

(** The OCR text of a page rasterised at [dpi], with its newline. *)
Definition page_ocr (dpi : Z) (pg : page) : exn + string :=
  match page_to_image_original pg dpi with
  | inl what => inl (LibraryError what)
  | inr image =>
      match image_to_string image with
      | inl what => inl (LibraryError what)
      | inr ocr => inr (ocr +:+ newline)
      end
  end.

(** What one page contributes: its text layer with a newline when that
    text is not empty, the OCR of the page at 300 DPI otherwise. *)
Definition page_contribution (pg : page) : exn + string :=
  match page_extract_text pg with
  | inl what => inl (LibraryError what)
  | inr (Some page_text) =>
      if Str.truthy page_text then inr (page_text +:+ newline)
      else page_ocr 300 pg
  | inr None => page_ocr 300 pg
  end.

(** The text of a document: the contributions of its pages, in page
    order, one after the other. *)
Definition pages_text (pages : list page) : exn + string :=
  match collect (map page_contribution pages) with
  | inl e => inl e
  | inr parts => inr (join parts)
  end.

(** The world in which the [try] block of [process_file] starts. *)
Definition materialised (file : UploadFile) (data : list Byte.byte)
    (w : world) : world :=
  let p := (fresh_stem w, snd (splitext (filename file))) in
  World (<[p := data]> (tmp_files w)) (trace w ++ [EvCreate p]).

(** Sequencing of two steps that may raise. *)
Definition and_then {A B} (r : exn + A) (k : A -> exn + B) : exn + B :=
  match r with
  | inl e => inl e
  | inr a => k a
  end.


(** What the PDF path makes of the bytes of a file. *)
Definition pdf_text (data : list Byte.byte) : exn + string :=
  and_then (lift_error (pdfplumber_open data)) pages_text.

End Descriptions.

(** ** A small instance of the collaborators

    An image is the text written on it, OCR reads that text, and a PDF page
    is a text layer (possibly absent) together with what the page shows.
    [pages] is what the PDF parser returns; an empty file is not a valid
    image. *)
Module Demo.

Definition demo_page : Type := option string * string.

(** [s] cut at its last dot: what precedes the dot, and the rest from the
    dot on. *)
Fixpoint cut_at_last_dot (s : string) : option (string * string) :=
  match s with
  | EmptyString => None
  | String c s' =>
      match cut_at_last_dot s' with
      | Some (root, ext) => Some (String c root, ext)
      | None => if Ascii.eqb c "." then Some (EmptyString, s) else None
      end
  end.

(** What follows the last slash of [s] ([s] itself if it has none). *)
Fixpoint after_last_slash (s : string) : string :=
  match s with
  | EmptyString => EmptyString
  | String c s' =>
      if Str.contains "/" s' then after_last_slash s'
      else if Ascii.eqb c "/" then s' else s
  end.

(** [posixpath.splitext]: the extension starts at the last dot of the last
    path component, unless only dots precede it in that component. *)
Definition posix_splitext (path : string) : string * string :=
  match cut_at_last_dot path with
  | None => (path, EmptyString)
  | Some (root, ext) =>
      if Str.contains "/" ext then (path, EmptyString)
      else if Str.all (fun c => Ascii.eqb c ".") (after_last_slash root)
      then (path, EmptyString)
      else (root, ext)
  end.

Lemma cut_at_last_dot_None (s : string) :
  cut_at_last_dot s = None -> Str.contains "." s = false.
Proof.
  induction s as [|c s IH]; [reflexivity|].
  cbn [cut_at_last_dot Str.contains Str.startswith].
  destruct (cut_at_last_dot s) as [[root ext]|]; [discriminate|].
  rewrite (Ascii.eqb_sym "." c).
  destruct (Ascii.eqb c "."); [discriminate|]. intros _. now apply IH.
Qed.

Lemma cut_at_last_dot_Some (s root ext : string) :
  cut_at_last_dot s = Some (root, ext) ->
  root +:+ ext = s
  /\ exists rest, ext = String "." rest /\ Str.contains "." rest = false.
Proof.
  revert root. induction s as [|c s IH]; intros root; [discriminate|].
  cbn [cut_at_last_dot].
  destruct (cut_at_last_dot s) as [[root' ext']|] eqn:Hcut.
  - intros [= <- <-]. destruct (IH root' eq_refl) as [Happ Hext].
    split; [|exact Hext]. simpl. now rewrite Happ.
  - destruct (Ascii.eqb_spec c ".") as [->|_]; [|discriminate].
    intros [= <- <-]. split; [reflexivity|].
    exists s. split; [reflexivity|]. now apply cut_at_last_dot_None.
Qed.

Lemma posix_splitext_concat (path : string) :
  fst (posix_splitext path) +:+ snd (posix_splitext path) = path.
Proof.
  assert (Hnil : forall s : string, s +:+ EmptyString = s).
  { induction s as [|c s IH]; simpl; [reflexivity | now rewrite IH]. }
  unfold posix_splitext.
  destruct (cut_at_last_dot path) as [[root ext]|] eqn:Hcut; [|apply Hnil].
  destruct (Str.contains "/" ext); [apply Hnil|].
  destruct (Str.all _ _); [apply Hnil|].
  apply (cut_at_last_dot_Some _ _ _ Hcut).
Qed.

Lemma posix_splitext_ext (path : string) :
  snd (posix_splitext path) = EmptyString
  \/ exists rest,
       snd (posix_splitext path) = String "." rest
       /\ Str.contains "." rest = false.
Proof.
  unfold posix_splitext.
  destruct (cut_at_last_dot path) as [[root ext]|] eqn:Hcut; [|now left].
  destruct (Str.contains "/" ext); [now left|].
  destruct (Str.all _ _); [now left|].
  right. apply (cut_at_last_dot_Some _ _ _ Hcut).
Qed.

(** The length of [s] in bytes once encoded in UTF-8. *)
Fixpoint utf8_length (s : string) : nat :=
  match s with
  | EmptyString => 0
  | String c s' => (if (N_of_ascii c <? 128)%N then 1 else 2) + utf8_length s'
  end.

(** [tempfile] on Linux: the name is [tmp], eight random characters and the
    suffix.  A NUL in it is refused with [ValueError], and a name of more
    than 255 bytes with [OSError] (file name too long). *)
Definition linux_tempfile_error (suffix : string) : option string :=
  if Str.contains (String "000" EmptyString) suffix
  then Some "ValueError"%string
  else if Nat.ltb 255 (11 + utf8_length suffix) then Some "OSError"%string
  else None.

Lemma linux_tempfile_plain_suffix (suffix : string) :
  String.length suffix <= 5 -> Str.all Str.is_plain suffix = true ->
  linux_tempfile_error suffix = None.
Proof.
  intros Hlen Hplain.
  assert (H : Str.contains (String "000" EmptyString) suffix = false
              /\ utf8_length suffix = String.length suffix).
  { clear Hlen. induction suffix as [|c s IH]; [now split|].
    simpl in Hplain. apply andb_true_iff in Hplain as [Hc Hs].
    destruct (IH Hs) as [H1 H2]. cbn [Str.contains Str.startswith utf8_length].
    rewrite H1, H2.
    assert (Hchar : Ascii.eqb "000" c = false /\ (N_of_ascii c <? 128)%N = true).
    { clear -Hc. destruct c as [[] [] [] [] [] [] [] []];
        vm_compute in Hc; try discriminate Hc; now split. }
    destruct Hchar as [-> ->]. now split. }
  destruct H as [Hnul Hutf]. unfold linux_tempfile_error.
  rewrite Hnul, Hutf.
  destruct (Nat.ltb_spec 255 (11 + String.length suffix)) as [Hlt|_];
    [lia | reflexivity].
Qed.

Definition externals (pages : list demo_page) : Externals := {|
  image := string;
  Image_open := fun data =>
    match data with
    | [] => inl "UnidentifiedImageError"%string
    | _ => inr (String.string_of_list_byte data)
    end;
  Image_convert := fun im _ => inr im;
  ImageOps_autocontrast := fun im => inr im;
  Image_width := fun im => Z.of_nat (String.length im);
  Image_height := fun _ => 1%Z;
  Image_resize := fun im _ => inr im;
  image_to_string := fun im => inr im;
  page := demo_page;
  pdfplumber_open := fun _ => inr pages;
  page_extract_text := fun pg => inr (fst pg);
  page_to_image_original := fun pg _ => inr (snd pg);
  splitext := posix_splitext;
  tempfile_error := linux_tempfile_error;
  exn_str := fun e =>
    match e with
    | HTTPException _ detail => detail
    | LibraryError what => what
    end;
  splitext_concat := posix_splitext_concat;
  splitext_ext := posix_splitext_ext;
  tempfile_plain_suffix := linux_tempfile_plain_suffix
|}.

(** The same collaborators with an OCR engine that raises on an image
    showing nothing. *)
Definition externals_with_strict_ocr (pages : list demo_page) : Externals := {|
  image := string;
  Image_open := Image_open (Externals := externals pages);
  Image_convert := fun im _ => inr im;
  ImageOps_autocontrast := fun im => inr im;
  Image_width := fun im => Z.of_nat (String.length im);
  Image_height := fun _ => 1%Z;
  Image_resize := fun im _ => inr im;
  image_to_string := fun im =>
    match im with
    | EmptyString => inl "TesseractError"%string
    | _ => inr im
    end;
  page := demo_page;
  pdfplumber_open := fun _ => inr pages;
  page_extract_text := fun pg => inr (fst pg);
  page_to_image_original := fun pg _ => inr (snd pg);
  splitext := posix_splitext;
  tempfile_error := linux_tempfile_error;
  exn_str := exn_str (Externals := externals pages);
  splitext_concat := posix_splitext_concat;
  splitext_ext := posix_splitext_ext;
  tempfile_plain_suffix := linux_tempfile_plain_suffix
|}.

Definition empty_world : world := World ∅ [].

Definition upload (name content : string) : UploadFile :=
  {| filename := name;
     file_read := inr (String.list_byte_of_string content) |}.

Definition broken_upload (name : string) : UploadFile :=
  {| filename := name; file_read := inl "OSError"%string |}.

(** A name whose extension has 300 characters. *)
Definition long_extension_name : string :=
  "x." +:+ join (repeat "a"%string 300).

(** 1800 characters of text. *)
Definition long_text : string :=
  join (repeat "PASSPORT "%string 200).

(** Page 1 has a text layer, pages 2 and 3 are scans. *)
Definition three_pages : list demo_page :=
  [ (Some "BIR FORM 2303", EmptyString);
    (None, "page two");
    (Some EmptyString, "page three") ]%string.

End Demo.

(** * Properties *)

(** ** Strings *)

Module StrFacts.
Import Str.

Lemma app_nil_r (s : string) : s +:+ EmptyString = s.
Proof. induction s as [|c s IH]; simpl; [reflexivity | now rewrite IH]. Qed.

Lemma app_assoc (s t u : string) : (s +:+ t) +:+ u = s +:+ t +:+ u.
Proof. induction s as [|c s IH]; simpl; [reflexivity | now rewrite IH]. Qed.

Lemma length_app (s t : string) :
  String.length (s +:+ t) = String.length s + String.length t.
Proof. induction s as [|c s IH]; simpl; [reflexivity | now rewrite IH]. Qed.

Lemma startswith_spec (p s : string) :
  startswith p s = true <-> exists post, s = p +:+ post.
Proof.
  revert s. induction p as [|a p IH]; intros s; simpl.
  - split; [intros _; now exists s | reflexivity].
  - destruct s as [|b s].
    + split; [discriminate | intros [post H]; discriminate].
    + destruct (Ascii.eqb_spec a b) as [->|Hne].
      * rewrite IH. split; intros [post H]; exists post.
        -- now rewrite H.
        -- now injection H.
      * split; [discriminate | intros [post H]]. injection H as Hab _.
        now elim Hne.
Qed.

Lemma contains_spec (sub s : string) :
  contains sub s = true <-> occurs sub s.
Proof.
  unfold occurs. induction s as [|c s IH].
  - simpl. rewrite orb_false_r, startswith_spec. split.
    + intros [post H]. now exists EmptyString, post.
    + intros [[|a pre] [post H]].
      * now exists post.
      * discriminate.
  - cbn [contains]. rewrite orb_true_iff, IH, startswith_spec. split.
    + intros [[post H] | (pre & post & H)].
      * now exists EmptyString, post.
      * exists (String c pre), post. simpl. now rewrite H.
    + intros [[|a pre] [post H]].
      * left. now exists post.
      * right. simpl in H. injection H as _ H. now exists pre, post.
Qed.

Lemma endswith_spec (suf s : string) :
  endswith suf s = true <-> exists pre, s = pre +:+ suf.
Proof.
  induction s as [|c s IH].
  - cbn [endswith]. rewrite orb_false_r, String.eqb_eq. split.
    + intros <-. now exists EmptyString.
    + intros [[|a pre] H]; [assumption | discriminate].
  - cbn [endswith]. rewrite orb_true_iff, IH, String.eqb_eq. split.
    + intros [<- | [pre H]].
      * now exists EmptyString.
      * exists (String c pre). simpl. now rewrite H.
    + intros [[|a pre] H].
      * now left.
      * right. simpl in H. injection H as _ H. now exists pre.
Qed.

(** *** Characters *)

Ltac by_cases_on c :=
  destruct c as [[] [] [] [] [] [] [] []]; vm_compute;
  first [reflexivity | discriminate | tauto | intros; discriminate].

Lemma lower_char_idem (c : ascii) : lower_char (lower_char c) = lower_char c.
Proof. by_cases_on c. Qed.

Lemma is_space_lower_char (c : ascii) : is_space (lower_char c) = is_space c.
Proof. by_cases_on c. Qed.

Lemma lower_char_space : lower_char " " = " "%char.
Proof. reflexivity. Qed.

(** *** [lower] *)

Lemma lower_idem (s : string) : lower (lower s) = lower s.
Proof.
  induction s as [|c s IH]; simpl; [reflexivity|].
  now rewrite lower_char_idem, IH.
Qed.

Lemma lower_app (s t : string) : lower (s +:+ t) = lower s +:+ lower t.
Proof. induction s as [|c s IH]; simpl; [reflexivity | now rewrite IH]. Qed.

Lemma lower_length (s : string) : String.length (lower s) = String.length s.
Proof. induction s as [|c s IH]; simpl; [reflexivity | now rewrite IH]. Qed.

Lemma occurs_lower (sub s : string) :
  occurs sub s -> occurs (lower sub) (lower s).
Proof.
  intros (pre & post & ->). exists (lower pre), (lower post).
  now rewrite !lower_app.
Qed.

(** *** [sub_ws] *)

Lemma sub_ws_from_app (s t : string) (b : bool) :
  sub_ws_from b (s +:+ t) = sub_ws_from b s +:+ sub_ws_from (end_state b s) t.
Proof.
  revert b. induction s as [|c s IH]; intros b; simpl; [reflexivity|].
  destruct (is_space c), b; simpl; now rewrite IH.
Qed.

(** A second pass over lower-cased output finds nothing to replace. *)
Lemma sub_ws_from_lower_sub_ws_from (s : string) (b b' : bool) :
  (b' = true -> b = true) ->
  sub_ws_from b' (lower (sub_ws_from b s)) = lower (sub_ws_from b s).
Proof.
  revert b b'. induction s as [|c s IH]; intros b b' Hb; simpl; [reflexivity|].
  destruct (is_space c) eqn:Hc.
  - destruct b.
    + now apply IH.
    + destruct b'; [now discriminate Hb|]. simpl.
      now rewrite (IH true true).
  - simpl. rewrite is_space_lower_char, Hc.
    now rewrite (IH false false).
Qed.

(** A run of white space, then the rest. *)
Lemma sub_ws_from_run (run rest : string) (b : bool) :
  all is_space run = true -> run <> EmptyString ->
  sub_ws_from b (run +:+ rest)
  = (if b then EmptyString else " "%string) +:+ sub_ws_from true rest.
Proof.
  revert b. induction run as [|c run IH]; intros b Hall Hne; [now elim Hne|].
  simpl in Hall. apply andb_true_iff in Hall as [Hc Hall]. simpl. rewrite Hc.
  destruct run as [|d run].
  - simpl. now destruct b.
  - rewrite (IH true Hall) by discriminate. now destruct b.
Qed.

Lemma sub_ws_from_false_true (s : string) :
  sub_ws_from false s = sub_ws_from true s
  \/ sub_ws_from false s = (" " +:+ sub_ws_from true s)%string.
Proof. destruct s as [|c s]; simpl; [now left|]. destruct (is_space c); auto. Qed.

Lemma sub_ws_from_ends_in_space (s : string) (b : bool) :
  end_state b s = true ->
  (exists x, sub_ws_from b s = x +:+ " ")
  \/ (b = true /\ sub_ws_from b s = EmptyString).
Proof.
  revert b. induction s as [|c s IH]; intros b H; simpl in *.
  - right. now split.
  - destruct (is_space c) eqn:Hc.
    + destruct (IH true H) as [[x Hx] | [_ Hnil]].
      * destruct b; [left; now exists x|].
        left. exists (String " " x). simpl. now rewrite Hx.
      * destruct b; [right; now split|].
        left. exists EmptyString. now rewrite Hnil.
    + destruct (IH false H) as [[x Hx] | [Hb _]]; [|discriminate].
      left. exists (String c x). simpl. now rewrite Hx.
Qed.

(** The replacement of a fragment occurs in the replacement of any text
    around it. *)
Lemma sub_ws_occurs (pre frag post : string) :
  occurs (sub_ws frag) (sub_ws (pre +:+ frag +:+ post)).
Proof.
  unfold sub_ws. rewrite !sub_ws_from_app.
  set (tail := sub_ws_from _ post).
  destruct (end_state false pre) eqn:Hend.
  - destruct (sub_ws_from_ends_in_space pre false Hend)
      as [[x Hx] | [Hb _]]; [|discriminate].
    rewrite Hx.
    destruct (sub_ws_from_false_true frag) as [H | H]; rewrite H.
    + exists (x +:+ " ")%string, tail. reflexivity.
    + exists x, tail. rewrite !app_assoc. reflexivity.
  - now exists (sub_ws_from false pre), tail.
Qed.

Lemma take_length (n : nat) (s : string) :
  String.length (take n s) = Nat.min n (String.length s).
Proof.
  revert s. induction n as [|n IH]; intros [|c s]; simpl; try reflexivity.
  now rewrite IH.
Qed.

Lemma take_prefix (n : nat) (s : string) : exists rest, s = take n s +:+ rest.
Proof.
  revert s. induction n as [|n IH]; intros s.
  - now exists s.
  - destruct s as [|c s]; [now exists EmptyString|].
    destruct (IH s) as [rest H]. exists rest. simpl. now rewrite <- H.
Qed.

End StrFacts.

Example sub_ws_sample :
  Str.sub_ws ("  BIR " +:+ newline +:+ String "009" "Form" +:+ newline)
  = " BIR Form "%string.
Proof. reflexivity. Qed.

Example normalize_text_sample :
  normalize_text ("  BIR " +:+ newline +:+ String "009" "Form  2303")
  = " bir form 2303"%string.
Proof. reflexivity. Qed.

Example contains_sample :
  Str.contains "bir form" " bir form 2303" = true
  /\ Str.contains "birform" " bir form 2303" = false
  /\ Str.contains EmptyString EmptyString = true.
Proof. repeat split. Qed.

Example endswith_sample :
  Str.endswith ".pdf" "scan.pdf" = true
  /\ Str.endswith ".pdf" "scan.pdf.txt" = false
  /\ Str.endswith_any [".png"; ".jpg"; ".jpeg"]%string "a.jpeg" = true
  /\ Str.endswith ".pdf" "pdf" = false.
Proof. repeat split. Qed.

Example posix_splitext_sample :
  map Demo.posix_splitext ["a.PNG"; ".bashrc"; "dir.d/file"; "a/b.tar.gz"]%string
  = [("a", ".PNG"); (".bashrc", EmptyString); ("dir.d/file", EmptyString);
     ("a/b.tar", ".gz")]%string.
Proof. reflexivity. Qed.

(** ** The normaliser and the registry *)

Lemma registry_forallb_spec (p : string -> bool) :
  registry_forallb p = true ->
  forall type keywords kw,
    DOCUMENT_KEYWORDS !! type = Some keywords -> In kw keywords -> p kw = true.
Proof.
  intros Hall type keywords kw Hlook Hin.
  apply elem_of_list_to_map_2, list_elem_of_In in Hlook.
  unfold registry_forallb in Hall. rewrite forallb_forall in Hall.
  specialize (Hall _ Hlook). simpl in Hall. rewrite forallb_forall in Hall.
  now apply Hall.
Qed.

(** The map holds exactly the items of the literal. *)
Lemma DOCUMENT_KEYWORDS_lookup (type : string) (keywords : list string) :
  DOCUMENT_KEYWORDS !! type = Some keywords
  <-> In (type, keywords) DOCUMENT_KEYWORDS_items.
Proof.
  rewrite <- list_elem_of_In. split.
  - apply elem_of_list_to_map_2.
  - apply elem_of_list_to_map_1.
    apply (bool_decide_unpack _). vm_compute. exact I.
Qed.

Lemma sub_ws_from_single_spaced (s : string) (b : bool) :
  single_spaced_from b s = true -> Str.sub_ws_from b s = s.
Proof.
  revert b. induction s as [|c s IH]; intros b H; simpl in *; [reflexivity|].
  destruct (Str.is_space c).
  - apply andb_true_iff in H as [H Hs]. apply andb_true_iff in H as [Hc Hb].
    apply Ascii.eqb_eq in Hc as ->. destruct b; [discriminate|].
    now rewrite (IH true Hs).
  - now rewrite (IH false H).
Qed.

Lemma lower_is_lowercase (s : string) : is_lowercase s = true -> Str.lower s = s.
Proof.
  induction s as [|c s IH]; simpl; [reflexivity|]. intros H.
  apply andb_true_iff in H as [Hc Hs]. apply Ascii.eqb_eq in Hc.
  now rewrite Hc, (IH Hs).
Qed.

Lemma sub_ws_from_length (s : string) (b : bool) :
  String.length (Str.sub_ws_from b s) <= String.length s.
Proof.
  revert b. induction s as [|c s IH]; intros b; simpl; [lia|].
  destruct (Str.is_space c); [destruct b|]; simpl.
  - specialize (IH true). lia.
  - specialize (IH true). lia.
  - specialize (IH false). lia.
Qed.

Lemma lower_sub_ws_from_fixed (s : string) (b : bool) :
  Str.lower (Str.sub_ws_from b s) = s ->
  single_spaced_from b s = true /\ is_lowercase s = true.
Proof.
  unfold is_lowercase.
  revert b. induction s as [|c s IH]; intros b H; simpl in *; [now split|].
  destruct (Str.is_space c) eqn:Hc.
  - destruct b.
    + exfalso. apply (f_equal String.length) in H.
      rewrite StrFacts.lower_length in H. simpl in H.
      pose proof (sub_ws_from_length s true). lia.
    + simpl in H. injection H as Hsp Hs. subst c.
      destruct (IH true Hs) as [H1 H2]. rewrite H1, H2. now split.
  - simpl in H. injection H as Hl Hs.
    destruct (IH false Hs) as [H1 H2]. rewrite H1, H2, Hl, Ascii.eqb_refl.
    now split.
Qed.

(** The fixed points of [normalize_text] are the lower-case, single-spaced
    strings. *)
Lemma normalize_text_fixed_point_iff (s : string) :
  normalize_text s = s <-> is_lowercase s = true /\ single_spaced s = true.
Proof.
  unfold normalize_text, Str.sub_ws, single_spaced. split.
  - intros H. apply lower_sub_ws_from_fixed in H. tauto.
  - intros [Hl Hs]. rewrite (sub_ws_from_single_spaced _ _ Hs).
    now apply lower_is_lowercase.
Qed.

(** C8.  Normalisation is idempotent: normalising a text that is already
    normalised returns it unchanged. *)
Theorem normalize_text_idempotent (s : string) :
  normalize_text (normalize_text s) = normalize_text s.
Proof.
  unfold normalize_text, Str.sub_ws.
  rewrite (StrFacts.sub_ws_from_lower_sub_ws_from s false false) by tauto.
  apply StrFacts.lower_idem.
Qed.

(** C10.  Every keyword of the registry is a fixed point of
    [normalize_text]: it is lower case and each of its white-space runs is
    one space.  Hence looking for the keyword in a text and looking for its
    normal form are the same test. *)
Theorem registry_keywords_are_normalized
    (type : string) (keywords : list string) (kw : string) :
  DOCUMENT_KEYWORDS !! type = Some keywords ->
  In kw keywords ->
  normalize_text kw = kw
  /\ is_lowercase kw = true
  /\ single_spaced kw = true
  /\ forall text,
       Str.contains kw text = Str.contains (normalize_text kw) text.
Proof.
  intros Hlook Hin.
  assert (Hfix : normalize_text kw = kw).
  { apply String.eqb_eq.
    apply (registry_forallb_spec (fun k => String.eqb (normalize_text k) k))
      with (type := type) (keywords := keywords); [|assumption..].
    vm_compute. reflexivity. }
  pose proof (proj1 (normalize_text_fixed_point_iff kw) Hfix) as [Hl Hs].
  repeat split; try assumption.
  intros text. now rewrite Hfix.
Qed.

Lemma registry_keywords_are_normalized_witness :
  normalize_text "bir form" = "bir form"%string
  /\ is_lowercase "bir form" = true
  /\ single_spaced "bir form" = true
  /\ forall text,
       Str.contains "bir form" text
       = Str.contains (normalize_text "bir form") text.
Proof.
  apply (registry_keywords_are_normalized
           "bir-form" ["bir form"; "bureau of internal revenue"]%string).
  - vm_compute. reflexivity.
  - simpl. left. reflexivity.
Defined.

(** ** Keyword search *)

Lemma next_match_Some (keywords : list string) (text kw : string) :
  next_match keywords text = Some kw ->
  exists before after,
    keywords = before ++ kw :: after
    /\ Str.contains kw text = true
    /\ forall k, In k before -> Str.contains k text = false.
Proof.
  induction keywords as [|k rest IH]; simpl; [discriminate|].
  destruct (Str.contains k text) eqn:Hk.
  - intros [= <-]. exists [], rest. repeat split; [assumption|]. intros ? [].
  - intros H. destruct (IH H) as (before & after & -> & Hkw & Hbefore).
    exists (k :: before), after. repeat split; [assumption|].
    intros k' [<- | Hin]; [assumption | now apply Hbefore].
Qed.

Lemma next_match_None (keywords : list string) (text : string) :
  next_match keywords text = None ->
  forall k, In k keywords -> Str.contains k text = false.
Proof.
  induction keywords as [|k rest IH]; simpl; [intros _ ? []|].
  destruct (Str.contains k text) eqn:Hk; [discriminate|].
  intros H k' [<- | Hin]; [assumption | now apply IH].
Qed.

Lemma next_match_first (before after : list string) (text kw : string) :
  (forall k, In k before -> Str.contains k text = false) ->
  Str.contains kw text = true ->
  next_match (before ++ kw :: after) text = Some kw.
Proof.
  induction before as [|k before IH]; simpl; intros Hbefore Hkw.
  - now rewrite Hkw.
  - rewrite (Hbefore k) by now left. apply IH; [|assumption].
    intros k' Hin. apply Hbefore. now right.
Qed.

Lemma next_match_is_Some (keywords : list string) (text kw : string) :
  In kw keywords -> Str.contains kw text = true ->
  exists first, next_match keywords text = Some first.
Proof.
  intros Hin Hkw. destruct (next_match keywords text) as [first|] eqn:H.
  - now exists first.
  - rewrite (next_match_None _ _ H kw Hin) in Hkw. discriminate.
Qed.

(** ** Extensions *)

Lemma lower_app_inv (s a b : string) :
  Str.lower s = a +:+ b ->
  exists s1 s2, s = s1 +:+ s2 /\ Str.lower s1 = a /\ Str.lower s2 = b.
Proof.
  revert s. induction a as [|c a IH]; intros s H.
  - exists EmptyString, s. now repeat split.
  - destruct s as [|d s]; [discriminate|]. simpl in H. injection H as Hc H.
    destruct (IH s H) as (s1 & s2 & -> & H1 & H2).
    exists (String d s1), s2. simpl. rewrite Hc, H1. now repeat split.
Qed.

Lemma endswith_lower_iff (name ext : string) :
  Str.endswith ext (Str.lower name) = true <-> has_extension name ext.
Proof.
  rewrite StrFacts.endswith_spec. unfold has_extension. split.
  - intros [pre H]. apply lower_app_inv in H as (stem & tail & -> & _ & Ht).
    now exists stem, tail.
  - intros (stem & tail & -> & Ht). exists (Str.lower stem).
    now rewrite StrFacts.lower_app, Ht.
Qed.

Lemma endswith_any_images_iff (name : string) :
  Str.endswith_any [".png"; ".jpg"; ".jpeg"]%string (Str.lower name) = true
  <-> is_image_name name.
Proof.
  unfold Str.endswith_any, is_image_name. simpl.
  rewrite !orb_true_iff, !endswith_lower_iff. intuition discriminate.
Qed.

(** ** Matching up to case and white space *)

Lemma loosely_matches_sub_ws_from (kw frag : string) :
  loosely_matches kw frag ->
  forall b, Str.lower (Str.sub_ws_from b frag) = Str.lower (Str.sub_ws_from b kw).
Proof.
  induction 1 as [| c c' kw frag Hc Hl _ IH | c run kw frag Hc Hrun Hne _ IH];
    intros b.
  - reflexivity.
  - assert (Hc' : Str.is_space c' = false).
    { now rewrite <- StrFacts.is_space_lower_char, Hl,
        StrFacts.is_space_lower_char. }
    simpl. rewrite Hc, Hc'. simpl. now rewrite Hl, IH.
  - rewrite (StrFacts.sub_ws_from_run run frag b Hrun Hne).
    simpl. rewrite Hc. destruct b; simpl; now rewrite IH.
Qed.

Lemma loosely_matches_normalize (kw frag : string) :
  loosely_matches kw frag -> normalize_text frag = normalize_text kw.
Proof. intros H. apply (loosely_matches_sub_ws_from _ _ H false). Qed.

(** Normalising a text keeps, in normal form, every fragment of it. *)
Lemma normalize_text_occurs (pre frag post : string) :
  occurs (normalize_text frag) (normalize_text (pre +:+ frag +:+ post)).
Proof. apply StrFacts.occurs_lower, StrFacts.sub_ws_occurs. Qed.

Lemma loosely_contains_normalized (kw s : string) :
  normalize_text kw = kw -> loosely_contains kw s ->
  Str.contains kw (normalize_text s) = true.
Proof.
  intros Hfix (pre & frag & post & -> & Hm).
  apply StrFacts.contains_spec. rewrite <- Hfix at 1.
  rewrite <- (loosely_matches_normalize _ _ Hm). apply normalize_text_occurs.
Qed.

Example loosely_matches_sample :
  loosely_matches "bir form"
    ("BIR" +:+ (" " +:+ newline +:+ String "009" EmptyString) +:+ "FoRM").
Proof.
  do 3 (apply lm_char; [reflexivity | reflexivity |]).
  apply (lm_space " " (" " +:+ newline +:+ String "009" EmptyString) "form" "FoRM");
    [reflexivity | reflexivity | discriminate |].
  do 4 (apply lm_char; [reflexivity | reflexivity |]).
  apply lm_nil.
Qed.

(** ** Running the program *)

Lemma collect_Forall2 {A B} (f : A -> exn + B) (xs : list A) (ys : list B) :
  Forall2 (fun x y => f x = inr y) xs ys -> collect (map f xs) = inr ys.
Proof.
  induction 1 as [|x y xs ys Hxy _ IH]; simpl; [reflexivity|].
  now rewrite Hxy, IH.
Qed.

Lemma fresh_stem_unused (w : world) (suffix : string) :
  tmp_files w !! (fresh_stem w, suffix) = None.
Proof.
  apply not_elem_of_dom. intros Hin.
  apply (elem_of_map_2 (D := gset nat) fst) in Hin.
  now apply is_fresh in Hin.
Qed.

Lemma call_run {A} (r : string + A) (w : world) : call r w = (lift_error r, w).
Proof. now destruct r. Qed.

(** The clean-up of [process_file] after a body that only appended events. *)
Lemma try_finally_os_remove {A} (body : M A) (p : tmp_path) (w : world)
    (r : exn + A) (events : list event) (data : list Byte.byte) :
  body w = (r, World (tmp_files w) (trace w ++ events)) ->
  tmp_files w !! p = Some data ->
  try_finally body (os_remove p) w
  = (r, World (delete p (tmp_files w)) (trace w ++ events ++ [EvRemove p])).
Proof.
  intros Hbody Hp. unfold try_finally, os_remove. rewrite Hbody. simpl.
  rewrite Hp. now rewrite <- List.app_assoc.
Qed.

Lemma appends_ret {A} (a : A) : appends [] (ret a).
Proof. intros [files tr]. exists (inr a). simpl. now rewrite List.app_nil_r. Qed.

Lemma appends_raise {A} (e : exn) : appends [] (raise (A := A) e).
Proof. intros [files tr]. exists (inl e). simpl. now rewrite List.app_nil_r. Qed.

Lemma appends_call {A} (r : string + A) : appends [] (call r).
Proof. destruct r; [apply appends_raise | apply appends_ret]. Qed.

Lemma appends_read_file (p : tmp_path) : appends [] (read_file p).
Proof.
  intros [files tr]. unfold read_file. simpl. rewrite List.app_nil_r.
  destruct (files !! p); eauto.
Qed.

Lemma appends_log (ev : event) : appends [ev] (log ev).
Proof. intros w. now exists (inr tt). Qed.

Lemma appends_bind {A B} (events : list event) (c : M A) (k : A -> M B) :
  appends events c -> (forall a, appends [] (k a)) ->
  appends events (bind c k).
Proof.
  intros Hc Hk w. unfold bind. destruct (Hc w) as [[e|a] ->].
  - now exists (inl e).
  - destruct (Hk a (World (tmp_files w) (trace w ++ events))) as [r ->].
    exists r. simpl. now rewrite List.app_nil_r.
Qed.

Section ServiceFacts.

Context {E : Externals}.

Lemma pages_text_nil : pages_text [] = inr EmptyString.
Proof. reflexivity. Qed.

Lemma pages_text_cons (pg : page) (rest : list page) :
  pages_text (pg :: rest)
  = match page_contribution pg with
    | inl e => inl e
    | inr part =>
        match pages_text rest with
        | inl e => inl e
        | inr parts => inr (part +:+ parts)
        end
    end.
Proof.
  unfold pages_text. simpl. destruct (page_contribution pg); [reflexivity|].
  now destruct (collect (map page_contribution rest)).
Qed.

(** The loop adds to the accumulator what [pages_text] describes and does
    not touch the world. *)
Lemma pdf_pages_loop_run (pages : list page) (text : string) (w : world) :
  pdf_pages_loop pages text w
  = (match pages_text pages with
     | inl e => inl e
     | inr parts => inr (text +:+ parts)
     end, w).
Proof.
  revert text. induction pages as [|pg rest IH]; intros text.
  - simpl. unfold ret. now rewrite StrFacts.app_nil_r.
  - rewrite pages_text_cons. cbn [pdf_pages_loop].
    unfold page_contribution, page_ocr, bind.
    rewrite call_run. destruct (page_extract_text pg) as [what|[t|]]; simpl.
    + reflexivity.
    + destruct (Str.truthy t); simpl.
      * rewrite IH. destruct (pages_text rest); [reflexivity|].
        now rewrite StrFacts.app_assoc.
      * rewrite call_run.
        destruct (page_to_image_original pg 300) as [what|im]; simpl;
          [reflexivity|].
        rewrite call_run. destruct (image_to_string im) as [what|ocr]; simpl;
          [reflexivity|].
        rewrite IH. destruct (pages_text rest); [reflexivity|].
        now rewrite StrFacts.app_assoc.
    + rewrite call_run.
      destruct (page_to_image_original pg 300) as [what|im]; simpl;
        [reflexivity|].
      rewrite call_run. destruct (image_to_string im) as [what|ocr]; simpl;
        [reflexivity|].
      rewrite IH. destruct (pages_text rest); [reflexivity|].
      now rewrite StrFacts.app_assoc.
Qed.

(** Whatever it returns, the image path records its call and leaves the
    files alone. *)
Lemma pdf_pages_loop_appends (pages : list page) (text : string) :
  appends [] (pdf_pages_loop pages text).
Proof.
  intros [files tr]. rewrite pdf_pages_loop_run. simpl.
  rewrite List.app_nil_r. eauto.
Qed.

Lemma extract_text_from_image_world (path : tmp_path) :
  appends [EvExtractImage path] (extract_text_from_image path).
Proof.
  unfold extract_text_from_image, preprocess_image.
  apply appends_bind; [apply appends_log|].
  intros _. apply appends_bind; [|intros; apply appends_call].
  apply appends_bind; [apply appends_read_file|]. intros data.
  repeat (apply appends_bind; [apply appends_call|]; intros ?).
  apply appends_ret.
Qed.

(** The same for the PDF path. *)
Lemma extract_text_from_pdf_world (path : tmp_path) :
  appends [EvExtractPdf path] (extract_text_from_pdf path).
Proof.
  unfold extract_text_from_pdf.
  apply appends_bind; [apply appends_log|].
  intros _. apply appends_bind; [apply appends_read_file|].
  intros data. apply appends_bind; [apply appends_call|].
  intros pages. apply pdf_pages_loop_appends.
Qed.

Lemma process_file_unfold (file : UploadFile) (data : list Byte.byte)
    (w : world) :
  tempfile_error (snd (splitext (filename file))) = None ->
  file_read file = inr data ->
  let p := (fresh_stem w, snd (splitext (filename file))) in
  process_file file w
  = try_finally
      (if Str.endswith_any [".png"; ".jpg"; ".jpeg"]%string
            (Str.lower (filename file))
       then extract_text_from_image p
       else if Str.endswith ".pdf" (Str.lower (filename file))
       then extract_text_from_pdf p
       else raise (HTTPException 400 "Unsupported file format"))
      (os_remove p) (materialised file data w).
Proof.
  intros Hcreate Hread p.
  unfold process_file, bind, NamedTemporaryFile, file_write, call, ret.
  rewrite Hcreate, Hread. simpl. fold p. rewrite lookup_insert_eq. simpl.
  unfold materialised. fold p. now rewrite insert_insert_eq.
Qed.

(** What a run of [process_file] leaves behind once the upload has been
    copied: the files as they were, and a trace that grew by the creation of
    the temporary file, at most one extraction call, and the removal. *)
Lemma process_file_world (file : UploadFile) (data : list Byte.byte)
    (w : world) :
  tempfile_error (snd (splitext (filename file))) = None ->
  file_read file = inr data ->
  let p := (fresh_stem w, snd (splitext (filename file))) in
  exists r middle,
    process_file file w
    = (r, World (tmp_files w)
            (trace w ++ EvCreate p :: middle ++ [EvRemove p]))
    /\ (middle = [] \/ middle = [EvExtractImage p]
        \/ middle = [EvExtractPdf p]).
Proof.
  intros Hcreate Hread p.
  rewrite (process_file_unfold file data w Hcreate Hread).
  fold p. set (w1 := materialised file data w).
  assert (Hp : tmp_files w1 !! p = Some data) by apply lookup_insert_eq.
  assert (Hdel : delete p (tmp_files w1) = tmp_files w).
  { apply delete_insert_id, fresh_stem_unused. }
  assert (Htr : forall evs, trace w1 ++ evs = trace w ++ EvCreate p :: evs).
  { intros evs. unfold w1, materialised. simpl.
    now rewrite <- List.app_assoc. }
  destruct (Str.endswith_any _ _).
  - destruct (extract_text_from_image_world p w1) as [r Hr].
    exists r, [EvExtractImage p].
    rewrite (try_finally_os_remove _ p w1 r _ data Hr Hp).
    split; [|auto]. f_equal. f_equal; [exact Hdel | apply Htr].
  - destruct (Str.endswith _ _).
    + destruct (extract_text_from_pdf_world p w1) as [r Hr].
      exists r, [EvExtractPdf p].
      rewrite (try_finally_os_remove _ p w1 r _ data Hr Hp).
    split; [|auto]. f_equal. f_equal; [exact Hdel | apply Htr].
    + exists (inl (HTTPException 400 "Unsupported file format")), [].
      rewrite (try_finally_os_remove _ p w1
                 (inl (HTTPException 400 "Unsupported file format")) []
                 data); [| |exact Hp].
      * split; [|auto]. f_equal. f_equal; [exact Hdel | apply Htr].
      * unfold raise. now rewrite List.app_nil_r.
Qed.

(** A failure while the upload is read happens inside the [with] block,
    before the [try] block is entered: the exception leaves [process_file]
    and the file that was just created stays. *)
Lemma process_file_upload_failure (file : UploadFile) (what : string)
    (w : world) :
  tempfile_error (snd (splitext (filename file))) = None ->
  file_read file = inl what ->
  let p := (fresh_stem w, snd (splitext (filename file))) in
  process_file file w
  = (inl (LibraryError what),
     World (<[p := []]> (tmp_files w)) (trace w ++ [EvCreate p])).
Proof.
  intros Hcreate Hread p.
  unfold process_file, bind, NamedTemporaryFile, call, raise.
  now rewrite Hcreate, Hread.
Qed.

(** A suffix that cannot end a file name: [NamedTemporaryFile] raises, and
    [process_file] with it, before anything is created or read. *)
Lemma process_file_refused (file : UploadFile) (what : string) (w : world) :
  tempfile_error (snd (splitext (filename file))) = Some what ->
  process_file file w = (inl (LibraryError what), w).
Proof.
  intros Hrefused. unfold process_file, bind, NamedTemporaryFile.
  now rewrite Hrefused.
Qed.

End ServiceFacts.

(** ** Suffixes *)

Lemma suffixes_comparable (s x a y b : string) :
  s = x +:+ a -> s = y +:+ b -> String.length a <= String.length b ->
  Str.endswith a b = true.
Proof.
  revert s x. induction y as [|c y IH]; intros s x Hx Hy Hlen.
  - simpl in Hy. subst s. apply StrFacts.endswith_spec. now exists x.
  - destruct x as [|d x].
    + exfalso. simpl in Hx. subst s. apply (f_equal String.length) in Hy.
      simpl in Hy. rewrite StrFacts.length_app in Hy. lia.
    + subst s. simpl in Hy. injection Hy as _ Hy.
      now apply (IH (x +:+ a) x).
Qed.

(** A name cannot end in two extensions neither of which ends the other. *)
Lemma has_extension_exclusive (name e1 e2 : string) :
  Str.endswith e1 e2 = false -> Str.endswith e2 e1 = false ->
  has_extension name e1 -> has_extension name e2 -> False.
Proof.
  intros H12 H21 H1 H2.
  apply endswith_lower_iff, StrFacts.endswith_spec in H1 as [x Hx].
  apply endswith_lower_iff, StrFacts.endswith_spec in H2 as [y Hy].
  destruct (Nat.le_ge_cases (String.length e1) (String.length e2)) as [Hle|Hle].
  - rewrite (suffixes_comparable _ _ _ _ _ Hx Hy Hle) in H12. discriminate.
  - rewrite (suffixes_comparable _ _ _ _ _ Hy Hx Hle) in H21. discriminate.
Qed.

Lemma pdf_name_is_not_image_name (name : string) :
  is_pdf_name name -> ~ is_image_name name.
Proof.
  intros Hpdf [H | [H | H]];
    revert H Hpdf; now apply has_extension_exclusive.
Qed.

(** ** Extensions that can end a file name *)

Lemma lower_char_is_period (c : ascii) : Str.lower_char c = "." -> c = ".".
Proof.
  destruct c as [[] [] [] [] [] [] [] []]; vm_compute;
    first [reflexivity | discriminate].
Qed.

Lemma is_plain_lower_char (c : ascii) :
  Str.is_plain (Str.lower_char c) = true -> Str.is_plain c = true.
Proof.
  destruct c as [[] [] [] [] [] [] [] []]; vm_compute;
    first [reflexivity | discriminate].
Qed.

Lemma period_eqb_lower_char (c : ascii) :
  Ascii.eqb "." (Str.lower_char c) = Ascii.eqb "." c.
Proof. destruct c as [[] [] [] [] [] [] [] []]; reflexivity. Qed.

Lemma contains_period_lower (s : string) :
  Str.contains "." (Str.lower s) = Str.contains "." s.
Proof.
  induction s as [|c s IH]; [reflexivity|].
  cbn [Str.lower Str.contains Str.startswith].
  now rewrite period_eqb_lower_char, IH.
Qed.

Lemma all_plain_lower (s : string) :
  Str.all Str.is_plain (Str.lower s) = true -> Str.all Str.is_plain s = true.
Proof.
  induction s as [|c s IH]; [reflexivity|]. simpl. intros H.
  apply andb_true_iff in H as [Hc Hs].
  now rewrite (is_plain_lower_char c Hc), (IH Hs).
Qed.

(** What follows the last period of a string is determined by the string. *)
Lemma after_last_period_unique (a r b t : string) :
  a +:+ String "." r = b +:+ String "." t ->
  Str.contains "." r = false -> Str.contains "." t = false -> r = t.
Proof.
  revert b. induction a as [|c a IH]; intros [|d b] Heq Hr Ht; simpl in Heq.
  - now injection Heq.
  - exfalso. injection Heq as _ Heq.
    assert (Hocc : Str.contains "." r = true).
    { apply StrFacts.contains_spec. now exists b, t. }
    rewrite Hr in Hocc. discriminate.
  - exfalso. injection Heq as _ Heq.
    assert (Hocc : Str.contains "." t = true).
    { apply StrFacts.contains_spec. now exists a, r. }
    rewrite Ht in Hocc. discriminate.
  - injection Heq as _ Heq. now apply (IH b).
Qed.

Section HandlerFacts.

Context {E : Externals}.

(** A name that ends, up to case, in a period followed by at most four
    ASCII letters or digits has a suffix with which a temporary file can be
    created. *)
Lemma known_extension_is_accepted (name e : string) :
  has_extension name (String "." e) ->
  Str.contains "." e = false ->
  Str.all Str.is_plain e = true ->
  String.length e <= 4 ->
  tempfile_error (snd (splitext name)) = None.
Proof.
  intros (stem & tail & Hname & Htail) Hdot Hplain Hlen.
  destruct tail as [|c tail]; [discriminate|]. simpl in Htail.
  injection Htail as Hc Htail. apply lower_char_is_period in Hc. subst c.
  destruct (splitext_ext name) as [-> | (rest & Hext & Hrest)].
  - apply tempfile_plain_suffix; [simpl; lia | reflexivity].
  - assert (Heq : rest = tail).
    { apply (after_last_period_unique (fst (splitext name)) rest stem tail);
        [|assumption|].
      - rewrite <- Hext, splitext_concat. exact Hname.
      - now rewrite <- contains_period_lower, Htail. }
    rewrite Hext, Heq. apply tempfile_plain_suffix.
    + simpl. rewrite <- (StrFacts.lower_length tail), Htail. lia.
    + simpl. apply all_plain_lower. now rewrite Htail.
Qed.

Lemma image_or_pdf_name_is_accepted (name : string) :
  is_image_name name \/ is_pdf_name name ->
  tempfile_error (snd (splitext name)) = None.
Proof.
  intros [[H | [H | H]] | H];
    refine (known_extension_is_accepted name _ H _ _ _);
    first [reflexivity | simpl; lia].
Qed.

Lemma process_file_unsupported (file : UploadFile) (data : list Byte.byte)
    (w : world) :
  tempfile_error (snd (splitext (filename file))) = None ->
  file_read file = inr data ->
  Str.endswith_any [".png"; ".jpg"; ".jpeg"]%string
    (Str.lower (filename file)) = false ->
  Str.endswith ".pdf" (Str.lower (filename file)) = false ->
  let p := (fresh_stem w, snd (splitext (filename file))) in
  process_file file w
  = (inl (HTTPException 400 "Unsupported file format"),
     World (tmp_files w) (trace w ++ [EvCreate p; EvRemove p])).
Proof.
  intros Hcreate Hread Himg Hpdf p.
  rewrite (process_file_unfold file data w Hcreate Hread), Himg, Hpdf.
  unfold try_finally, raise, os_remove, materialised. simpl. fold p.
  rewrite lookup_insert_eq. f_equal. f_equal.
  - apply delete_insert_id, fresh_stem_unused.
  - now rewrite <- List.app_assoc.
Qed.

Lemma validate_file_unregistered (type : string) (file : UploadFile)
    (w : world) :
  DOCUMENT_KEYWORDS !! type = None ->
  validate_file type file w
  = (inl (HTTPException 500
            (exn_str (HTTPException 400 "Unsupported document type"))), w).
Proof.
  intros Hnone. unfold validate_file, try_except, bind. now rewrite Hnone.
Qed.

Lemma validate_file_registered (type : string) (keywords : list string)
    (file : UploadFile) (w : world) :
  DOCUMENT_KEYWORDS !! type = Some keywords ->
  validate_file type file w
  = match process_file file w with
    | (inl e, w1) => (inl (HTTPException 500 (exn_str e)), w1)
    | (inr raw_text, w1) =>
        let found_keyword := next_match keywords (normalize_text raw_text) in
        (inr {| is_valid := truthy_opt found_keyword;
                message :=
                  if truthy_opt found_keyword
                  then dquote +:+ (str_of_opt found_keyword
                                     +:+ (dquote +:+ " detected."))
                  else "No expected keyword found.";
                debug_text_snippet :=
                  Str.take 1000 (normalize_text raw_text) |}, w1)
    end.
Proof.
  intros Hsome. unfold validate_file, try_except, bind, dict_getitem.
  rewrite Hsome. simpl. destruct (process_file file w) as [[e|raw] w1];
    reflexivity.
Qed.

(** Every exception that leaves the handler is an [HTTPException] with
    status 500. *)
Lemma validate_file_raises_only_500 (type : string) (file : UploadFile)
    (w w' : world) (e : exn) :
  validate_file type file w = (inl e, w') ->
  exists detail, e = HTTPException 500 detail.
Proof.
  destruct (DOCUMENT_KEYWORDS !! type) as [keywords|] eqn:Hlook.
  - rewrite (validate_file_registered _ _ _ _ Hlook).
    destruct (process_file file w) as [[e0|raw] w1]; intros [= <- _]; eauto.
  - rewrite (validate_file_unregistered _ _ _ Hlook). intros [= <- _]. eauto.
Qed.

(** C1.  The specification asks for a client-error status (4xx) when the
    document type or the file extension is unsupported, and for a
    server-error status on every other failure.  The handler does raise
    [HTTPException(status_code=400)] in the first two cases, but it does so
    inside its own [try] block, whose [except Exception] clause catches that
    exception too and raises [HTTPException(status_code=500)] in its place.
    Evaluated on a type that is not registered ([nbi-clearance]) and on a
    registered type with the file name [notes.txt], the handler answers both
    requests with status 500. *)
Theorem unsupported_requests_are_answered_with_500
    (file : UploadFile) (data : list Byte.byte) (w : world) :
  let text_file := {| filename := "notes.txt"; file_read := inr data |} in
  validate_file "nbi-clearance" file w
  = (inl (HTTPException 500
            (exn_str (HTTPException 400 "Unsupported document type"))), w)
  /\ http_status (fst (validate_file "nbi-clearance" file w)) = 500%Z
  /\ fst (validate_file "passport" text_file w)
     = inl (HTTPException 500
              (exn_str (HTTPException 400 "Unsupported file format")))
  /\ http_status (fst (validate_file "passport" text_file w)) = 500%Z.
Proof.
  intros text_file.
  assert (H1 : DOCUMENT_KEYWORDS !! "nbi-clearance"%string = None)
    by (vm_compute; reflexivity).
  assert (H2 : DOCUMENT_KEYWORDS !! "passport"%string
               = Some ["passport"; "republic of the philippines passport"]%string)
    by (vm_compute; reflexivity).
  rewrite (validate_file_unregistered _ file w H1).
  rewrite (validate_file_registered _ _ text_file w H2).
  assert (H3 : tempfile_error (snd (splitext (filename text_file))) = None).
  { apply (known_extension_is_accepted "notes.txt" "txt");
      [|reflexivity|reflexivity|simpl; lia].
    exists "notes"%string, ".txt"%string. now split. }
  rewrite (process_file_unsupported text_file data w H3 eq_refl eq_refl
             eq_refl).
  repeat split.
Qed.

(** C5, as amended.  Once the temporary file could be created and the
    upload has been copied into it, routing looks only at the end of the
    file name and ignores the case of its letters: a name ending in [.png],
    [.jpg] or [.jpeg] goes to the image path, a name ending in [.pdf] to
    the PDF path, and any other name makes [process_file] raise the
    unsupported-format error (status 400 at this level) without calling
    either extractor.  For the image and PDF names the file can always be
    created as far as the name is concerned; for the other names this is a
    condition, because the suffix is taken from the client's file name. *)
Theorem process_file_routes_by_extension
    (file : UploadFile) (data : list Byte.byte) (w : world) :
  file_read file = inr data ->
  let p := (fresh_stem w, snd (splitext (filename file))) in
  (is_image_name (filename file) ->
     process_file file w
     = try_finally (extract_text_from_image p) (os_remove p)
         (materialised file data w))
  /\ (is_pdf_name (filename file) ->
        process_file file w
        = try_finally (extract_text_from_pdf p) (os_remove p)
            (materialised file data w))
  /\ (~ is_image_name (filename file) -> ~ is_pdf_name (filename file) ->
        tempfile_error (snd (splitext (filename file))) = None ->
        process_file file w
        = (inl (HTTPException 400 "Unsupported file format"),
           World (tmp_files w) (trace w ++ [EvCreate p; EvRemove p]))).
Proof.
  intros Hread p. repeat split.
  - intros Himg.
    pose proof (image_or_pdf_name_is_accepted _ (or_introl Himg)) as Hcreate.
    apply endswith_any_images_iff in Himg.
    now rewrite (process_file_unfold file data w Hcreate Hread), Himg.
  - intros Hpdf.
    pose proof (image_or_pdf_name_is_accepted _ (or_intror Hpdf)) as Hcreate.
    pose proof (pdf_name_is_not_image_name _ Hpdf) as Himg.
    rewrite <- endswith_any_images_iff in Himg.
    apply not_true_is_false in Himg. apply endswith_lower_iff in Hpdf.
    now rewrite (process_file_unfold file data w Hcreate Hread), Himg, Hpdf.
  - intros Himg Hpdf Hcreate. rewrite <- endswith_any_images_iff in Himg.
    unfold is_pdf_name in Hpdf. rewrite <- endswith_lower_iff in Hpdf.
    apply not_true_is_false in Himg, Hpdf.
    exact (process_file_unsupported file data w Hcreate Hread Himg Hpdf).
Qed.

End HandlerFacts.

Lemma process_file_routes_by_extension_witness :
  let E := Demo.externals [] in
  let file := Demo.upload "Scan.JPG" "PASSPORT" in
  let p := (0, ".JPG"%string) in
  file_read file = inr (String.list_byte_of_string "PASSPORT")
  /\ is_image_name (filename file)
  /\ process_file file Demo.empty_world
     = (inr "PASSPORT"%string,
        World ∅ [EvCreate p; EvExtractImage p; EvRemove p]).
Proof.
  intros E file p.
  assert (Himg : is_image_name (filename file)).
  { right. left. exists "Scan"%string, ".JPG"%string. now split. }
  split; [reflexivity|]. split; [exact Himg|].
  rewrite (proj1 (process_file_routes_by_extension
                    file (String.list_byte_of_string "PASSPORT")
                    Demo.empty_world eq_refl) Himg).
  vm_compute. reflexivity.
Defined.

(** C5, as stated, fails: the name [x.aaa...a], with an extension of 300
    characters, is neither an image name nor a PDF name, and the upload can
    be read, yet [process_file] does not fail with the unsupported-format
    error.  The temporary file is created before the extension is looked
    at, with the client's extension as its suffix; here no file name can
    end in that suffix, so [NamedTemporaryFile] raises [OSError] and no
    routing takes place. *)
Lemma long_extension_fails_before_routing :
  let E := Demo.externals [] in
  let file := Demo.upload Demo.long_extension_name "%PDF" in
  file_read file = inr (String.list_byte_of_string "%PDF")
  /\ ~ is_image_name (filename file)
  /\ ~ is_pdf_name (filename file)
  /\ process_file file Demo.empty_world
     = (inl (LibraryError "OSError"), Demo.empty_world)
  /\ fst (process_file file Demo.empty_world)
     <> inl (HTTPException 400 "Unsupported file format").
Proof.
  intros E file. split; [reflexivity|]. split; [|split].
  - intros H. apply endswith_any_images_iff in H. vm_compute in H.
    discriminate H.
  - intros H. apply endswith_lower_iff in H. vm_compute in H.
    discriminate H.
  - assert (Hrun : process_file file Demo.empty_world
                   = (inl (LibraryError "OSError"), Demo.empty_world))
      by (vm_compute; reflexivity).
    split; [exact Hrun|]. rewrite Hrun. discriminate.
Qed.

Section Cleanup.

Context {E : Externals}.

(** The instrumentation is faithful: a call of either extractor always
    shows in the trace. *)
Lemma extraction_leaves_a_mark (p : tmp_path) (w : world) :
  trace (snd (extract_text_from_image p w)) = trace w ++ [EvExtractImage p]
  /\ trace (snd (extract_text_from_pdf p w)) = trace w ++ [EvExtractPdf p].
Proof.
  destruct (extract_text_from_image_world p w) as [r1 ->].
  destruct (extract_text_from_pdf_world p w) as [r2 ->].
  now split.
Qed.

(** C6.  A request whose declared type is not a key of the registry is
    rejected before any extraction work: the handler raises and hands back
    the world it received, so no temporary file was created and neither
    extractor was called (a call of an extractor always adds its event to
    the trace). *)
Theorem unregistered_type_is_rejected_before_extraction
    (type : string) (file : UploadFile) (w : world) :
  DOCUMENT_KEYWORDS !! type = None ->
  (exists e, validate_file type file w = (inl e, w))
  /\ (forall p, ~ In (EvExtractImage p) (trace w) ->
                ~ In (EvExtractImage p)
                    (trace (snd (validate_file type file w))))
  /\ (forall p, ~ In (EvExtractPdf p) (trace w) ->
                ~ In (EvExtractPdf p)
                    (trace (snd (validate_file type file w))))
  /\ (forall p, In (EvExtractImage p)
                  (trace (snd (extract_text_from_image p w)))
                /\ In (EvExtractPdf p)
                     (trace (snd (extract_text_from_pdf p w)))).
Proof.
  intros Hnone. rewrite (validate_file_unregistered type file w Hnone).
  repeat split; eauto.
  - rewrite (proj1 (extraction_leaves_a_mark p w)).
    apply in_or_app. right. now left.
  - rewrite (proj2 (extraction_leaves_a_mark p w)).
    apply in_or_app. right. now left.
Qed.

(** On each of the three ways out of the [try] block (a returned text, an
    exception of an extractor, the unsupported-format error) the temporary
    file is removed: the run creates one file, removes it exactly once as
    its last action, and leaves the directory as it found it. *)
Lemma process_file_cleans_up_after_the_try_block
    (file : UploadFile) (data : list Byte.byte) (w w' : world)
    (r : exn + string) :
  tempfile_error (snd (splitext (filename file))) = None ->
  file_read file = inr data ->
  process_file file w = (r, w') ->
  let p := (fresh_stem w, snd (splitext (filename file))) in
  tmp_files w !! p = None
  /\ (exists new,
        trace w' = trace w ++ new
        /\ head new = Some (EvCreate p)
        /\ last new = Some (EvRemove p)
        /\ count_occ event_eq_dec new (EvCreate p) = 1
        /\ count_occ event_eq_dec new (EvRemove p) = 1)
  /\ tmp_files w' !! p = None
  /\ tmp_files w' = tmp_files w.
Proof.
  intros Hcreate Hread Hrun p.
  destruct (process_file_world file data w Hcreate Hread)
    as (r0 & middle & Heq & Hmid).
  fold p in Heq, Hmid. rewrite Heq in Hrun. injection Hrun as _ <-. simpl.
  pose proof (fresh_stem_unused w (snd (splitext (filename file)))) as Hnew.
  fold p in Hnew.
  split; [exact Hnew|]. split; [|split; [exact Hnew | reflexivity]].
  exists (EvCreate p :: middle ++ [EvRemove p]). split; [reflexivity|].
  split; [reflexivity|]. split.
  - change (EvCreate p :: middle ++ [EvRemove p])
      with ((EvCreate p :: middle) ++ [EvRemove p]).
    apply last_snoc.
  - destruct Hmid as [-> | [-> | ->]]; cbn [app]; split;
      repeat first [ rewrite count_occ_cons_eq by reflexivity
                   | rewrite count_occ_cons_neq by discriminate ];
      reflexivity.
Qed.

(** C7.  The specification wants the temporary file deleted on every exit
    path, so that none remains after the request.  The [try ... finally]
    that removes the file starts only after the [with] block in which the
    upload is read and written into the file.  When that copy raises, the
    exception leaves [process_file] past the [finally]: the file that was
    created for the request is still in the directory when control returns,
    and [os.remove] was never called. *)
Theorem failed_copy_leaves_the_temporary_file
    (file : UploadFile) (what : string) (w : world) :
  tempfile_error (snd (splitext (filename file))) = None ->
  file_read file = inl what ->
  let p := (fresh_stem w, snd (splitext (filename file))) in
  tmp_files w !! p = None
  /\ process_file file w
     = (inl (LibraryError what),
        World (<[p := []]> (tmp_files w)) (trace w ++ [EvCreate p]))
  /\ tmp_files (snd (process_file file w)) !! p = Some [].
Proof.
  intros Hcreate Hread p.
  rewrite (process_file_upload_failure file what w Hcreate Hread). fold p.
  split; [apply fresh_stem_unused|]. split; [reflexivity|].
  apply lookup_insert_eq.
Qed.

End Cleanup.

Lemma unregistered_type_is_rejected_before_extraction_witness :
  let E := Demo.externals [] in
  let file := Demo.upload "id.png" "PASSPORT" in
  DOCUMENT_KEYWORDS !! "nbi-clearance"%string = None
  /\ exists e, validate_file "nbi-clearance" file Demo.empty_world
               = (inl e, Demo.empty_world).
Proof.
  intros E file.
  assert (Hnone : DOCUMENT_KEYWORDS !! "nbi-clearance"%string = None)
    by (vm_compute; reflexivity).
  split; [exact Hnone|].
  exact (proj1 (unregistered_type_is_rejected_before_extraction
                  "nbi-clearance" file Demo.empty_world Hnone)).
Defined.

Lemma failed_copy_leaves_the_temporary_file_witness :
  let E := Demo.externals [] in
  let file := Demo.broken_upload "id.png" in
  let p := (0, ".png"%string) in
  process_file file Demo.empty_world
  = (inl (LibraryError "OSError"), World {[ p := [] ]} [EvCreate p])
  /\ tmp_files (snd (process_file file Demo.empty_world)) !! p = Some [].
Proof.
  intros E file p. split; [vm_compute; reflexivity|].
  refine (proj2 (proj2 (failed_copy_leaves_the_temporary_file
                          file "OSError" Demo.empty_world _ eq_refl))).
  vm_compute. reflexivity.
Defined.

Section Validation.

Context {E : Externals}.

(** C2.  For a registered type, the keywords are tried in the order of the
    registry and the first one that is a literal substring of the
    normalised text is selected.  When there is one, [is_valid] is true and
    the message is that keyword in double quotes followed by [ detected.];
    when no keyword is a substring, [is_valid] is false and the message is
    [No expected keyword found.]. *)
Theorem validate_file_reports_first_keyword
    (type : string) (keywords : list string) (file : UploadFile)
    (w w1 : world) (raw_text : string) :
  DOCUMENT_KEYWORDS !! type = Some keywords ->
  process_file file w = (inr raw_text, w1) ->
  let text := normalize_text raw_text in
  exists resp,
    validate_file type file w = (inr resp, w1)
    /\ ((exists before kw after,
           keywords = before ++ kw :: after
           /\ occurs kw text
           /\ (forall k, In k before -> ~ occurs k text)
           /\ is_valid resp = true
           /\ message resp = detected kw)
        \/ ((forall k, In k keywords -> ~ occurs k text)
            /\ is_valid resp = false
            /\ message resp = "No expected keyword found."%string)).
Proof.
  intros Hlook Hrun text.
  rewrite (validate_file_registered type keywords file w Hlook), Hrun.
  cbv zeta. fold text. eexists. split; [reflexivity|]. simpl.
  destruct (next_match keywords text) as [kw|] eqn:Hnext.
  - left. destruct (next_match_Some _ _ _ Hnext)
      as (before & after & Hsplit & Hkw & Hbefore).
    assert (Htruthy : Str.truthy kw = true).
    { apply (registry_forallb_spec Str.truthy eq_refl type keywords);
        [assumption|]. rewrite Hsplit. apply in_or_app. right. now left. }
    exists before, kw, after. simpl. rewrite Htruthy.
    repeat split; try assumption.
    + now apply StrFacts.contains_spec.
    + intros k Hin Hocc. apply StrFacts.contains_spec in Hocc.
      now rewrite (Hbefore k Hin) in Hocc.
  - right. repeat split. intros k Hin Hocc.
    apply StrFacts.contains_spec in Hocc.
    now rewrite (next_match_None _ _ Hnext k Hin) in Hocc.
Qed.

(** C3, as amended.  When the extracted text contains a keyword of the
    declared type up to the case of its letters and the shape of its white
    space, the response is valid and its message names the first keyword of
    the type's list that occurs in the normalised text.  That is the
    contained keyword itself whenever no keyword listed before it occurs in
    the normalised text. *)
Theorem loosely_contained_keyword_is_detected
    (type : string) (keywords : list string) (kw : string)
    (file : UploadFile) (w w1 : world) (raw_text : string) :
  DOCUMENT_KEYWORDS !! type = Some keywords ->
  In kw keywords ->
  process_file file w = (inr raw_text, w1) ->
  loosely_contains kw raw_text ->
  let text := normalize_text raw_text in
  exists resp first,
    validate_file type file w = (inr resp, w1)
    /\ is_valid resp = true
    /\ message resp = detected first
    /\ (exists before after,
          keywords = before ++ first :: after
          /\ occurs first text
          /\ forall k, In k before -> ~ occurs k text)
    /\ (forall before after,
          keywords = before ++ kw :: after ->
          (forall k, In k before -> ~ occurs k text) ->
          first = kw).
Proof.
  intros Hlook Hin Hrun Hloose text.
  assert (Hfix : normalize_text kw = kw).
  { apply String.eqb_eq.
    apply (registry_forallb_spec (fun k => String.eqb (normalize_text k) k))
      with (type := type) (keywords := keywords); [|assumption..].
    vm_compute. reflexivity. }
  pose proof (loosely_contains_normalized kw raw_text Hfix Hloose) as Hkw.
  fold text in Hkw.
  destruct (next_match_is_Some keywords text kw Hin Hkw) as [first Hnext].
  destruct (next_match_Some _ _ _ Hnext)
    as (before & after & Hsplit & Hfirst & Hbefore).
  assert (Htruthy : Str.truthy first = true).
  { apply (registry_forallb_spec Str.truthy eq_refl type keywords);
      [assumption|]. rewrite Hsplit. apply in_or_app. right. now left. }
  rewrite (validate_file_registered type keywords file w Hlook), Hrun.
  cbv zeta. fold text. rewrite Hnext. simpl. rewrite Htruthy.
  eexists. exists first. split; [reflexivity|]. simpl.
  split; [reflexivity|]. split; [reflexivity|]. split.
  - exists before, after. repeat split; try assumption.
    + now apply StrFacts.contains_spec.
    + intros k Hk Hocc. apply StrFacts.contains_spec in Hocc.
      now rewrite (Hbefore k Hk) in Hocc.
  - intros before' after' Hsplit' Hnone.
    assert (Hnext' : next_match keywords text = Some kw).
    { rewrite Hsplit'. apply next_match_first; [|assumption].
      intros k Hk. destruct (Str.contains k text) eqn:Hc; [|reflexivity].
      elim (Hnone k Hk). now apply StrFacts.contains_spec. }
    congruence.
Qed.

(** C9.  In every response, [debug_text_snippet] is the first 1000
    characters of the normalised text: a prefix of it whose length is the
    smaller of 1000 and the length of the text, hence at most 1000. *)
Theorem debug_text_snippet_is_bounded_prefix
    (type : string) (file : UploadFile) (w w' : world) (resp : JSONResponse) :
  validate_file type file w = (inr resp, w') ->
  exists raw_text,
    process_file file w = (inr raw_text, w')
    /\ debug_text_snippet resp = Str.take 1000 (normalize_text raw_text)
    /\ (exists rest,
          normalize_text raw_text = debug_text_snippet resp +:+ rest)
    /\ String.length (debug_text_snippet resp)
       = Nat.min 1000 (String.length (normalize_text raw_text))
    /\ String.length (debug_text_snippet resp) <= 1000.
Proof.
  destruct (DOCUMENT_KEYWORDS !! type) as [keywords|] eqn:Hlook.
  - rewrite (validate_file_registered type keywords file w Hlook).
    destruct (process_file file w) as [[e|raw_text] w1]; [discriminate|].
    cbv zeta. intros [= <- <-]. exists raw_text. cbn [debug_text_snippet].
    split; [reflexivity|]. split; [reflexivity|].
    split; [apply StrFacts.take_prefix|].
    rewrite StrFacts.take_length. split; [reflexivity | apply Nat.le_min_l].
  - rewrite (validate_file_unregistered type file w Hlook). discriminate.
Qed.

(** C4.  The PDF extractor visits the pages in document order.  A page
    contributes its text layer followed by a newline when that text is not
    empty, and otherwise the OCR of the page rasterised at 300 DPI followed
    by a newline; the result is the concatenation of these contributions
    in page order (and the first exception, in page order, if some step
    raises). *)
Theorem extract_text_from_pdf_concatenates_pages
    (path : tmp_path) (data : list Byte.byte) (pages : list page)
    (w : world) :
  tmp_files w !! path = Some data ->
  pdfplumber_open data = inr pages ->
  extract_text_from_pdf path w
  = (pages_text pages,
     World (tmp_files w) (trace w ++ [EvExtractPdf path]))
  /\ (forall parts,
        Forall2 (fun pg part => page_contribution pg = inr part) pages parts ->
        pages_text pages = inr (join parts)).
Proof.
  intros Hfile Hopen. split.
  - unfold extract_text_from_pdf, bind, log, read_file. simpl.
    rewrite Hfile, call_run, Hopen. simpl. rewrite pdf_pages_loop_run.
    now destruct (pages_text pages).
  - intros parts Hparts. unfold pages_text.
    now rewrite (collect_Forall2 page_contribution pages parts Hparts).
Qed.

End Validation.

(** ** The theorems at concrete requests *)

Lemma validate_file_reports_first_keyword_witness :
  let E := Demo.externals [] in
  let file := Demo.upload "id.png" "Republic of the PHILIPPINES  Passport" in
  let keywords := ["passport"; "republic of the philippines passport"]%string in
  let p := (0, ".png"%string) in
  let w1 := World ∅ [EvCreate p; EvExtractImage p; EvRemove p] in
  let text := normalize_text "Republic of the PHILIPPINES  Passport" in
  exists resp,
    validate_file "passport" file Demo.empty_world = (inr resp, w1)
    /\ ((exists before kw after,
           keywords = before ++ kw :: after
           /\ occurs kw text
           /\ (forall k, In k before -> ~ occurs k text)
           /\ is_valid resp = true
           /\ message resp = detected kw)
        \/ ((forall k, In k keywords -> ~ occurs k text)
            /\ is_valid resp = false
            /\ message resp = "No expected keyword found."%string)).
Proof.
  intros E file keywords p w1 text.
  apply (validate_file_reports_first_keyword "passport" keywords file
           Demo.empty_world w1 "Republic of the PHILIPPINES  Passport").
  - vm_compute. reflexivity.
  - vm_compute. reflexivity.
Defined.

Lemma loosely_contained_keyword_is_detected_witness :
  let E := Demo.externals [] in
  let raw_text :=
    ("Form: BIR" +:+ (" " +:+ newline +:+ String "009" EmptyString)
       +:+ "FoRM 2303")%string in
  let file := Demo.upload "scan.jpeg" raw_text in
  let p := (0, ".jpeg"%string) in
  let w1 := World ∅ [EvCreate p; EvExtractImage p; EvRemove p] in
  loosely_contains "bir form" raw_text
  /\ exists resp first,
       validate_file "bir-form" file Demo.empty_world = (inr resp, w1)
       /\ is_valid resp = true
       /\ message resp = detected first.
Proof.
  intros E raw_text file p w1.
  assert (Hloose : loosely_contains "bir form" raw_text).
  { exists "Form: "%string,
      ("BIR" +:+ (" " +:+ newline +:+ String "009" EmptyString) +:+ "FoRM")%string,
      " 2303"%string.
    split; [reflexivity | apply loosely_matches_sample]. }
  split; [exact Hloose|].
  destruct (loosely_contained_keyword_is_detected
              "bir-form" ["bir form"; "bureau of internal revenue"]%string
              "bir form" file Demo.empty_world w1 raw_text)
    as (resp & first & Hrun & Hvalid & Hmsg & _).
  - vm_compute. reflexivity.
  - left. reflexivity.
  - vm_compute. reflexivity.
  - exact Hloose.
  - exists resp, first. now repeat split.
Defined.

(** C3, as stated, fails: the text [GSIS SSS] contains the keyword [sss] of
    the type [sss-gsis-umid], and the response is valid, but its message
    names [gsis], the first keyword of the list found in the text. *)
Lemma message_names_first_keyword_not_every_contained_one :
  let E := Demo.externals [] in
  let file := Demo.upload "card.png" "GSIS SSS" in
  let p := (0, ".png"%string) in
  let w1 := World ∅ [EvCreate p; EvExtractImage p; EvRemove p] in
  exists keywords resp,
    DOCUMENT_KEYWORDS !! "sss-gsis-umid"%string = Some keywords
    /\ In "sss"%string keywords
    /\ process_file file Demo.empty_world = (inr "GSIS SSS"%string, w1)
    /\ loosely_contains "sss" "GSIS SSS"
    /\ validate_file "sss-gsis-umid" file Demo.empty_world = (inr resp, w1)
    /\ is_valid resp = true
    /\ message resp = detected "gsis"
    /\ message resp <> detected "sss".
Proof.
  intros E file p w1. eexists. eexists.
  split; [vm_compute; reflexivity|].
  split; [simpl; tauto|].
  split; [vm_compute; reflexivity|].
  split.
  { exists "GSIS "%string, "SSS"%string, EmptyString. split; [reflexivity|].
    do 3 (apply lm_char; [reflexivity | reflexivity |]). apply lm_nil. }
  split; [vm_compute; reflexivity|].
  split; [reflexivity|]. split; [reflexivity | discriminate].
Qed.

Lemma debug_text_snippet_is_bounded_prefix_witness :
  let E := Demo.externals [] in
  let file := Demo.upload "long.png" Demo.long_text in
  String.length (normalize_text Demo.long_text) = 1800
  /\ exists resp w',
       validate_file "passport" file Demo.empty_world = (inr resp, w')
       /\ String.length (debug_text_snippet resp) <= 1000.
Proof.
  intros E file. split; [vm_compute; reflexivity|].
  eexists. eexists. split; [vm_compute; reflexivity|].
  match goal with
  | |- String.length (debug_text_snippet ?resp) <= _ =>
      destruct (debug_text_snippet_is_bounded_prefix
                  "passport" file Demo.empty_world
                  (World ∅ [EvCreate (0, ".png"%string);
                            EvExtractImage (0, ".png"%string);
                            EvRemove (0, ".png"%string)])
                  resp) as (raw & _ & _ & _ & _ & Hle);
      [vm_compute; reflexivity | exact Hle]
  end.
Defined.

Lemma extract_text_from_pdf_concatenates_pages_witness :
  let E := Demo.externals Demo.three_pages in
  let path := (7, ".pdf"%string) in
  let w := World {[ path := [] ]} [] in
  extract_text_from_pdf path w
  = (inr ("BIR FORM 2303" +:+ newline +:+ "page two" +:+ newline
          +:+ "page three" +:+ newline),
     World {[ path := [] ]} [EvExtractPdf path]).
Proof.
  intros E path w.
  refine (eq_trans
            (proj1 (extract_text_from_pdf_concatenates_pages
                      path [] Demo.three_pages w _ _)) _).
  - vm_compute. reflexivity.
  - reflexivity.
  - vm_compute. reflexivity.
Defined.

(** ** The scenarios of the specification *)

Example scenario_passport :
  fst (validate_file (E := Demo.externals []) "passport"
         (Demo.upload "photo.jpg" "REPUBLIC OF THE PHILIPPINES PASSPORT")
         Demo.empty_world)
  = inr {| is_valid := true;
           message := detected "passport";
           debug_text_snippet := "republic of the philippines passport" |}.
Proof. vm_compute. reflexivity. Qed.

Example scenario_three_page_pdf :
  fst (validate_file (E := Demo.externals Demo.three_pages) "bir-form"
         (Demo.upload "2303.PDF" "%PDF") Demo.empty_world)
  = inr {| is_valid := true;
           message := detected "bir form";
           debug_text_snippet := "bir form 2303 page two page three " |}.
Proof. vm_compute. reflexivity. Qed.

Example scenario_empty_text :
  fst (validate_file (E := Demo.externals []) "dti-license"
         (Demo.upload "blank.pdf" "%PDF") Demo.empty_world)
  = inr {| is_valid := false;
           message := "No expected keyword found.";
           debug_text_snippet := EmptyString |}.
Proof. vm_compute. reflexivity. Qed.

(** The upload cannot be read: the request fails with status 500 and the
    temporary file is still there. *)
Example scenario_unreadable_upload :
  validate_file (E := Demo.externals []) "passport"
    (Demo.broken_upload "id.png") Demo.empty_world
  = (inl (HTTPException 500 "OSError"),
     World {[ (0, ".png"%string) := [] ]} [EvCreate (0, ".png"%string)]).
Proof. vm_compute. reflexivity. Qed.

(** * Further properties of the program *)

(** ** The normaliser

    The four properties below are about texts all of whose characters are
    below U+0100 (ASCII and Latin-1), which is what a [string] is in this
    development.  Beyond that range [str.lower] is no longer a map from one
    character to one character, and the properties do not extend. *)

(** X1.  For every text of characters below U+0100, the output of
    [normalize_text] is in normal form: it has no upper-case letter, and
    its only white space is single spaces, never two in a row. *)
Theorem normalize_text_is_in_normal_form (s : string) :
  is_lowercase (normalize_text s) = true
  /\ single_spaced (normalize_text s) = true.
Proof.
  apply normalize_text_fixed_point_iff.
  unfold normalize_text, Str.sub_ws.
  rewrite (StrFacts.sub_ws_from_lower_sub_ws_from s false false) by tauto.
  apply StrFacts.lower_idem.
Qed.

(** X2.  Normalising a text of characters below U+0100 never makes it
    longer. *)
Theorem normalize_text_never_grows (s : string) :
  String.length (normalize_text s) <= String.length s.
Proof.
  unfold normalize_text, Str.sub_ws. rewrite StrFacts.lower_length.
  apply sub_ws_from_length.
Qed.

(** X3.  Two texts of characters below U+0100 that differ only in the case
    of their letters and in the shape of their white-space runs have the
    same normal form. *)
Theorem normalize_text_ignores_case_and_spacing (kw frag : string) :
  loosely_matches kw frag -> normalize_text frag = normalize_text kw.
Proof.
  intros H. unfold normalize_text, Str.sub_ws.
  apply (loosely_matches_sub_ws_from kw frag H false).
Qed.

Lemma normalize_text_ignores_case_and_spacing_witness :
  normalize_text
    ("BIR" +:+ (" " +:+ newline +:+ String "009" EmptyString) +:+ "FoRM")
  = normalize_text "bir form".
Proof.
  apply normalize_text_ignores_case_and_spacing, loosely_matches_sample.
Defined.

(** X4.  On texts of characters below U+0100, normalisation keeps
    occurrences: if a fragment occurs in a text, the normal form of the
    fragment occurs in the normal form of the text, whatever surrounds the
    fragment. *)
Theorem normalize_text_preserves_occurrences (frag s : string) :
  occurs frag s -> occurs (normalize_text frag) (normalize_text s).
Proof. intros (pre & post & ->). apply normalize_text_occurs. Qed.

Lemma normalize_text_preserves_occurrences_witness :
  occurs "Business  Permit" ("CITY OF X" +:+ newline +:+ "Business  Permit No. 7")
  /\ occurs (normalize_text "Business  Permit")
       (normalize_text ("CITY OF X" +:+ newline +:+ "Business  Permit No. 7")).
Proof.
  assert (H : occurs "Business  Permit"
                ("CITY OF X" +:+ newline +:+ "Business  Permit No. 7")).
  { exists ("CITY OF X" +:+ newline)%string, " No. 7"%string. reflexivity. }
  split; [exact H|].
  exact (normalize_text_preserves_occurrences _ _ H).
Defined.

(** A text made of white space only has the normal form of one space, and
    the empty text stays empty. *)
Lemma normalize_text_blank (s : string) :
  Str.all Str.is_space s = true ->
  normalize_text s = (if Str.truthy s then " " else EmptyString)%string.
Proof.
  intros Hall. destruct s as [|c s]; [reflexivity|].
  unfold normalize_text, Str.sub_ws.
  rewrite <- (StrFacts.app_nil_r (String c s)).
  rewrite (StrFacts.sub_ws_from_run (String c s) EmptyString false Hall)
    by discriminate.
  reflexivity.
Qed.

Lemma take_all (n : nat) (s : string) :
  String.length s <= n -> Str.take n s = s.
Proof.
  revert s. induction n as [|n IH]; intros [|c s] H; simpl in H;
    try reflexivity; [lia|].
  change (Str.take (S n) (String c s)) with (String c (Str.take n s)).
  rewrite IH by lia. reflexivity.
Qed.

Lemma next_match_is_None (keywords : list string) (text : string) :
  (forall k, In k keywords -> Str.contains k text = false) ->
  next_match keywords text = None.
Proof.
  induction keywords as [|k rest IH]; intros H; simpl; [reflexivity|].
  rewrite (H k) by now left. apply IH. intros k' Hin. apply H. now right.
Qed.

Lemma string_app_inv_tail (s s' t : string) : s +:+ t = s' +:+ t -> s = s'.
Proof.
  revert s'. induction s as [|c s IH]; intros [|c' s'] H; simpl in H.
  - reflexivity.
  - exfalso. apply (f_equal String.length) in H. simpl in H.
    rewrite StrFacts.length_app in H. lia.
  - exfalso. apply (f_equal String.length) in H. simpl in H.
    rewrite StrFacts.length_app in H. lia.
  - injection H as -> H. now rewrite (IH s' H).
Qed.

Lemma detected_inj (a b : string) : detected a = detected b -> a = b.
Proof.
  unfold detected, dquote. simpl. intros [= H].
  now apply string_app_inv_tail in H.
Qed.

(** ** The extractors and the dispatcher *)

Section Dispatch.

Context {E : Externals}.


Lemma extract_text_from_pdf_run (path : tmp_path) (data : list Byte.byte)
    (w : world) :
  tmp_files w !! path = Some data ->
  extract_text_from_pdf path w
  = (pdf_text data, World (tmp_files w) (trace w ++ [EvExtractPdf path])).
Proof.
  intros Hfile.
  unfold extract_text_from_pdf, pdf_text, and_then, bind, log, read_file.
  simpl. rewrite Hfile, call_run.
  destruct (pdfplumber_open data) as [what|pages]; simpl; [reflexivity|].
  rewrite pdf_pages_loop_run. now destruct (pages_text pages).
Qed.






Lemma pages_text_app (ps qs : list page) :
  pages_text (ps ++ qs)
  = match pages_text ps with
    | inl e => inl e
    | inr first =>
        match pages_text qs with
        | inl e => inl e
        | inr second => inr (first +:+ second)
        end
    end.
Proof.
  induction ps as [|pg ps IH].
  - cbn [app]. rewrite pages_text_nil. now destruct (pages_text qs).
  - cbn [app]. rewrite !pages_text_cons, IH.
    destruct (page_contribution pg) as [e|part]; [reflexivity|].
    destruct (pages_text ps) as [e|first]; [reflexivity|].
    destruct (pages_text qs) as [e|second]; [reflexivity|].
    now rewrite StrFacts.app_assoc.
Qed.

(** X7.  The page loop composes: running it over the pages [ps ++ qs] is
    running it over [ps] and then, if nothing was raised, over [qs] with
    the text accumulated so far. *)
Theorem pdf_pages_loop_app
    (ps qs : list page) (text : string) (w : world) :
  pdf_pages_loop (ps ++ qs) text w
  = bind (pdf_pages_loop ps text) (fun so_far => pdf_pages_loop qs so_far) w.
Proof.
  unfold bind. rewrite !pdf_pages_loop_run, pages_text_app.
  destruct (pages_text ps) as [e|first]; [reflexivity|].
  rewrite pdf_pages_loop_run.
  destruct (pages_text qs) as [e|second]; [reflexivity|].
  now rewrite StrFacts.app_assoc.
Qed.

End Dispatch.

(** ** The handler *)

Lemma occurs_trans (a b c : string) : occurs a b -> occurs b c -> occurs a c.
Proof.
  intros (p1 & q1 & ->) (p2 & q2 & ->).
  exists (p2 +:+ p1)%string, (q1 +:+ q2)%string.
  now rewrite !StrFacts.app_assoc.
Qed.

(** Two decompositions of one list: if [y] is neither [x] nor among the
    elements before [x], then [x] is among the elements before [y]. *)
Lemma earlier_element {A} (before rest b a : list A) (x y : A) :
  before ++ x :: rest = b ++ y :: a ->
  ~ In y before -> y <> x -> In x b.
Proof.
  revert b. induction before as [|z before IH]; intros b Heq Hnotin Hne.
  - destruct b as [|z b]; simpl in Heq; injection Heq as Hx _.
    + now elim Hne.
    + subst z. now left.
  - destruct b as [|z' b]; simpl in Heq; injection Heq as Hz Heq.
    + elim Hnotin. left. assumption.
    + right. apply (IH b Heq); [|assumption].
      intros Hin. apply Hnotin. now right.
Qed.

Section Handler.

Context {E : Externals}.

(** X8.  The handler answers with status 200 or with status 500 and with
    no other status: 200 when it returns a response, 500 whenever it
    raises, whatever was raised inside it. *)
Theorem handler_status_is_200_or_500
    (type : string) (file : UploadFile) (w : world) :
  (exists resp,
     fst (validate_file type file w) = inr resp
     /\ http_status (fst (validate_file type file w)) = 200%Z)
  \/ (exists detail,
        fst (validate_file type file w) = inl (HTTPException 500 detail)
        /\ http_status (fst (validate_file type file w)) = 500%Z).
Proof.
  destruct (validate_file type file w) as [[e|resp] w'] eqn:Hrun.
  - right. destruct (validate_file_raises_only_500 _ _ _ _ _ Hrun) as [d ->].
    now exists d.
  - left. now exists resp.
Qed.

(** X10.  When the temporary file has been created and reading the upload
    raises, the request (for a registered type) is answered with status 500
    carrying that error, no extractor is called, and the temporary file,
    still empty, is not removed: the directory has one more file than
    before. *)
Theorem unreadable_upload_leaves_its_temporary_file
    (type : string) (keywords : list string) (file : UploadFile)
    (what : string) (w : world) :
  DOCUMENT_KEYWORDS !! type = Some keywords ->
  tempfile_error (snd (splitext (filename file))) = None ->
  file_read file = inl what ->
  let p := (fresh_stem w, snd (splitext (filename file))) in
  tmp_files w !! p = None
  /\ validate_file type file w
     = (inl (HTTPException 500 (exn_str (LibraryError what))),
        World (<[p := []]> (tmp_files w)) (trace w ++ [EvCreate p])).
Proof.
  intros Hlook Hcreate Hread p. split; [apply fresh_stem_unused|].
  rewrite (validate_file_registered type keywords file w Hlook).
  now rewrite (process_file_upload_failure file what w Hcreate Hread).
Qed.

(** X12.  A document whose extracted text is empty or white space only is
    never valid, whatever the registered type: the response says that no
    keyword was found, and its snippet is empty or one space. *)
Theorem blank_text_is_never_valid
    (type : string) (keywords : list string) (file : UploadFile)
    (w w1 : world) (raw_text : string) :
  DOCUMENT_KEYWORDS !! type = Some keywords ->
  process_file file w = (inr raw_text, w1) ->
  Str.all Str.is_space raw_text = true ->
  validate_file type file w
  = (inr {| is_valid := false;
            message := "No expected keyword found.";
            debug_text_snippet :=
              if Str.truthy raw_text then " " else EmptyString |}, w1).
Proof.
  intros Hlook Hrun Hblank.
  rewrite (validate_file_registered type keywords file w Hlook), Hrun.
  cbv zeta. rewrite (normalize_text_blank raw_text Hblank).
  assert (Hnone : forall text, text = " "%string \/ text = EmptyString ->
                    next_match keywords text = None).
  { intros text Htext. apply next_match_is_None. intros k Hin.
    pose proof (registry_forallb_spec
                  (fun k => negb (Str.contains k " ")
                            && negb (Str.contains k EmptyString))
                  eq_refl type keywords k Hlook Hin) as Hk.
    apply andb_true_iff in Hk as [H1 H2].
    apply negb_true_iff in H1, H2. now destruct Htext as [-> | ->]. }
  destruct (Str.truthy raw_text).
  - now rewrite (Hnone " "%string) by now left.
  - now rewrite (Hnone EmptyString) by now right.
Qed.

(** X13.  The snippet is the whole normalised text exactly when that text
    has at most 1000 characters. *)
Theorem snippet_is_whole_text_iff_short
    (type : string) (file : UploadFile) (w w' : world)
    (resp : JSONResponse) (raw_text : string) :
  validate_file type file w = (inr resp, w') ->
  process_file file w = (inr raw_text, w') ->
  debug_text_snippet resp = normalize_text raw_text
  <-> String.length (normalize_text raw_text) <= 1000.
Proof.
  destruct (DOCUMENT_KEYWORDS !! type) as [keywords|] eqn:Hlook.
  - rewrite (validate_file_registered type keywords file w Hlook).
    intros Hrun Hproc. rewrite Hproc in Hrun. cbv zeta in Hrun.
    injection Hrun as <-. cbn [debug_text_snippet]. split.
    + intros Heq. apply (f_equal String.length) in Heq.
      rewrite StrFacts.take_length in Heq. lia.
    + apply take_all.
  - rewrite (validate_file_unregistered type file w Hlook). discriminate.
Qed.

(** X14.  A keyword that contains a keyword listed before it is never
    reported: whenever it occurs in the text, so does the earlier one,
    which is found first. *)
Theorem keyword_containing_an_earlier_one_is_never_reported
    (type : string) (before rest : list string) (kw1 kw2 : string)
    (file : UploadFile) (w w' : world) (resp : JSONResponse) :
  DOCUMENT_KEYWORDS !! type = Some (before ++ kw1 :: rest) ->
  occurs kw1 kw2 ->
  ~ In kw2 before ->
  kw2 <> kw1 ->
  validate_file type file w = (inr resp, w') ->
  message resp <> detected kw2.
Proof.
  intros Hlook Hocc Hnotin Hne.
  rewrite (validate_file_registered type _ file w Hlook).
  destruct (process_file file w) as [[e|raw_text] w1]; [discriminate|].
  cbv zeta. intros [= <- _]. cbn [message].
  destruct (next_match _ (normalize_text raw_text)) as [first|] eqn:Hnext;
    [|discriminate].
  simpl. destruct (Str.truthy first); [|discriminate].
  intros Hmsg. apply (detected_inj first kw2) in Hmsg. subst first.
  destruct (next_match_Some _ _ _ Hnext) as (b & a & Hsplit & Hkw2 & Hb).
  pose proof (earlier_element _ _ _ _ _ _ Hsplit Hnotin Hne) as Hin.
  apply StrFacts.contains_spec in Hkw2.
  pose proof (occurs_trans _ _ _ Hocc Hkw2) as Hkw1.
  apply StrFacts.contains_spec in Hkw1.
  rewrite (Hb kw1 Hin) in Hkw1. discriminate.
Qed.

(** X15.  For a registered type, the response is valid exactly when some
    keyword of the type is a literal substring of the normalised text; the
    order of the keywords decides the message, not the validity. *)
Theorem is_valid_iff_some_keyword_occurs
    (type : string) (keywords : list string) (file : UploadFile)
    (w w1 : world) (raw_text : string) :
  DOCUMENT_KEYWORDS !! type = Some keywords ->
  process_file file w = (inr raw_text, w1) ->
  exists resp,
    validate_file type file w = (inr resp, w1)
    /\ (is_valid resp = true
        <-> exists kw, In kw keywords /\ occurs kw (normalize_text raw_text)).
Proof.
  intros Hlook Hrun.
  rewrite (validate_file_registered type keywords file w Hlook), Hrun.
  cbv zeta. eexists. split; [reflexivity|]. cbn [is_valid].
  destruct (next_match keywords (normalize_text raw_text)) as [first|]
    eqn:Hnext; simpl.
  - destruct (next_match_Some _ _ _ Hnext) as (b & a & Hsplit & Hfirst & _).
    assert (Hin : In first keywords).
    { rewrite Hsplit. apply in_or_app. right. now left. }
    rewrite (registry_forallb_spec Str.truthy eq_refl type keywords first
               Hlook Hin).
    split; [intros _|reflexivity]. exists first. split; [assumption|].
    now apply StrFacts.contains_spec.
  - split; [discriminate|]. intros (kw & Hin & Hocc).
    apply StrFacts.contains_spec in Hocc.
    now rewrite (next_match_None _ _ Hnext kw Hin) in Hocc.
Qed.

End Handler.

(** ** The further properties at concrete requests *)



Lemma unreadable_upload_leaves_its_temporary_file_witness :
  let E := Demo.externals [] in
  let file := Demo.broken_upload "id.png" in
  let p := (0, ".png"%string) in
  validate_file "passport" file Demo.empty_world
  = (inl (HTTPException 500 "OSError"),
     World {[ p := [] ]} [EvCreate p]).
Proof.
  intros E file p.
  refine (eq_trans
            (proj2 (unreadable_upload_leaves_its_temporary_file
                      "passport"
                      ["passport"; "republic of the philippines passport"]%string
                      file "OSError" Demo.empty_world _ _ eq_refl)) _).
  - vm_compute. reflexivity.
  - vm_compute. reflexivity.
  - vm_compute. reflexivity.
Defined.

Lemma blank_text_is_never_valid_witness :
  let E := Demo.externals [(None, EmptyString); (Some EmptyString, "  ")]%string in
  let file := Demo.upload "blank.pdf" "%PDF" in
  let p := (0, ".pdf"%string) in
  let w1 := World ∅ [EvCreate p; EvExtractPdf p; EvRemove p] in
  process_file file Demo.empty_world
  = (inr (newline +:+ "  " +:+ newline), w1)
  /\ validate_file "dti-license" file Demo.empty_world
     = (inr {| is_valid := false;
               message := "No expected keyword found.";
               debug_text_snippet := " " |}, w1).
Proof.
  intros E file p w1.
  assert (Hrun : process_file file Demo.empty_world
                 = (inr (newline +:+ "  " +:+ newline), w1))
    by (vm_compute; reflexivity).
  split; [exact Hrun|].
  refine (eq_trans
            (blank_text_is_never_valid
               "dti-license"
               ["department of trade and industry"; "dti certificate"]%string
               file Demo.empty_world w1 (newline +:+ "  " +:+ newline)
               _ Hrun eq_refl) _).
  - vm_compute. reflexivity.
  - reflexivity.
Defined.

Lemma snippet_is_whole_text_iff_short_witness :
  let E := Demo.externals [] in
  let file := Demo.upload "long.png" Demo.long_text in
  let p := (0, ".png"%string) in
  let w' := World ∅ [EvCreate p; EvExtractImage p; EvRemove p] in
  exists resp,
    validate_file "passport" file Demo.empty_world = (inr resp, w')
    /\ (debug_text_snippet resp = normalize_text Demo.long_text
        <-> String.length (normalize_text Demo.long_text) <= 1000).
Proof.
  intros E file p w'. eexists. split; [vm_compute; reflexivity|].
  apply (snippet_is_whole_text_iff_short "passport" file Demo.empty_world w').
  - vm_compute. reflexivity.
  - vm_compute. reflexivity.
Defined.

Lemma keyword_containing_an_earlier_one_is_never_reported_witness :
  let E := Demo.externals [] in
  let file := Demo.upload "id.png" "Republic of the Philippines PASSPORT" in
  let p := (0, ".png"%string) in
  let w' := World ∅ [EvCreate p; EvExtractImage p; EvRemove p] in
  exists resp,
    validate_file "passport" file Demo.empty_world = (inr resp, w')
    /\ message resp = detected "passport"
    /\ message resp <> detected "republic of the philippines passport".
Proof.
  intros E file p w'. eexists. split; [vm_compute; reflexivity|].
  split; [reflexivity|].
  apply (keyword_containing_an_earlier_one_is_never_reported
           "passport" [] ["republic of the philippines passport"]%string
           "passport" "republic of the philippines passport"
           file Demo.empty_world w').
  - vm_compute. reflexivity.
  - exists "republic of the philippines "%string, EmptyString. reflexivity.
  - intros [].
  - discriminate.
  - vm_compute. reflexivity.
Defined.

Lemma is_valid_iff_some_keyword_occurs_witness :
  let E := Demo.externals [] in
  let file := Demo.upload "tin.jpg" "TIN  ID 123-456" in
  let keywords := ["taxpayer identification number"; "tin id"]%string in
  let p := (0, ".jpg"%string) in
  let w1 := World ∅ [EvCreate p; EvExtractImage p; EvRemove p] in
  exists resp,
    validate_file "tin-id" file Demo.empty_world = (inr resp, w1)
    /\ (is_valid resp = true
        <-> exists kw, In kw keywords
                       /\ occurs kw (normalize_text "TIN  ID 123-456")).
Proof.
  intros E file keywords p w1.
  apply (is_valid_iff_some_keyword_occurs "tin-id" keywords file
           Demo.empty_world w1 "TIN  ID 123-456").
  - vm_compute. reflexivity.
  - vm_compute. reflexivity.
Defined.

Section Pages.

Context {E : Externals}.

(** X16.  The PDF extractor returns no partial text: when the pages before
    some page are extracted and that page raises (its text layer, its
    rasterisation or its OCR), the extractor raises that exception,
    whatever text was accumulated and whatever the later pages hold. *)
Theorem pdf_extraction_fails_as_a_whole
    (path : tmp_path) (data : list Byte.byte)
    (ps qs : list page) (pg : page) (parts : list string) (e : exn)
    (w : world) :
  tmp_files w !! path = Some data ->
  pdfplumber_open data = inr (ps ++ pg :: qs) ->
  Forall2 (fun p part => page_contribution p = inr part) ps parts ->
  page_contribution pg = inl e ->
  extract_text_from_pdf path w
  = (inl e, World (tmp_files w) (trace w ++ [EvExtractPdf path])).
Proof.
  intros Hfile Hopen Hparts Hfail.
  rewrite (extract_text_from_pdf_run path data w Hfile).
  unfold pdf_text, and_then. rewrite Hopen. simpl.
  rewrite pages_text_app, pages_text_cons, Hfail.
  unfold pages_text at 1.
  now rewrite (collect_Forall2 page_contribution ps parts Hparts).
Qed.

End Pages.

Lemma pdf_extraction_fails_as_a_whole_witness :
  let pages :=
    [ (Some "BIR FORM 2303", EmptyString); (None, EmptyString);
      (Some EmptyString, "page three") ]%string in
  let E := Demo.externals_with_strict_ocr pages in
  let path := (3, ".pdf"%string) in
  let w := World {[ path := [] ]} [] in
  extract_text_from_pdf path w
  = (inl (LibraryError "TesseractError"),
     World {[ path := [] ]} [EvExtractPdf path]).
Proof.
  intros pages E path w.
  refine (eq_trans
            (pdf_extraction_fails_as_a_whole
               path []
               [(Some "BIR FORM 2303", EmptyString)]%string
               [(Some EmptyString, "page three")]%string
               (None, EmptyString)
               ["BIR FORM 2303" +:+ newline]%string
               (LibraryError "TesseractError") w _ _ _ _) _).
  - vm_compute. reflexivity.
  - reflexivity.
  - constructor; [reflexivity | constructor].
  - reflexivity.
  - vm_compute. reflexivity.
Defined.
